(** * Lift-tile generator: a shallow embedding of [scripts/generate-lift-tiles.py]

    The script turns ski-lift polylines (GeoJSON) into a slippy-map pyramid
    of PNG tiles.  This development embeds its coordinate arithmetic, its
    style tables, its bounding-box / tile-range computation and the control
    flow of [generate_tiles], and states the properties of the design
    document against that embedding.

    Two readings of the arithmetic are given.

    - The primary one follows CPython: a Python [float] is an IEEE-754
      binary64 number (Rocq's primitive [float]), a Python [int] is a [Z],
      and every operation that can raise in Python returns a [result].
      The four functions of the C mathematics library that the script calls
      ([tan], [asinh], [sinh], [atan]) are not fixed by any standard to the
      last bit, so they are a parameter ([libm]) of the model.
    - Module [Exact] reads the same formulas over the real numbers; it is
      the arithmetic that the floating-point code approximates, and is used
      for the statements that hold only up to rounding. *)

From Stdlib Require Import ZArith List Bool Ascii Lia Floats.
From Stdlib Require Reals.
From Stdlib Require Import Lra.
From stdpp Require Import gmap strings.
From stdpp Require Import pretty.

Set Default Proof Using "Type".

(** ** Python exceptions and results *)

Module Py.

Inductive exn : Set :=
| ValueError
| OverflowError
| ZeroDivisionError
| IndexError.

Inductive result (A : Type) : Type :=
| OK (a : A)
| Raise (e : exn).

Arguments OK {A} a.
Arguments Raise {A} e.

Definition bind {A B : Type} (r : result A) (k : A -> result B) : result B :=
  match r with
  | OK a => k a
  | Raise e => Raise e
  end.

Definition succeeds {A : Type} (r : result A) : bool :=
  match r with
  | OK _ => true
  | Raise _ => false
  end.

End Py.

Import Py.

Declare Scope py_scope.
Delimit Scope py_scope with py.
Notation "'let!' x ':=' c 'in' k" := (Py.bind c (fun x => k))
  (at level 10, x name, c at level 200, k at level 200) : py_scope.
Notation "'let!' ' p ':=' c 'in' k" := (Py.bind c (fun p => k))
  (at level 10, p pattern, c at level 200, k at level 200) : py_scope.
Local Open Scope py_scope.

(** ** Python's numeric operations on binary64 *)

Module PyFloat.

(** [math.pi], the binary64 number nearest to pi. *)
Definition pi : float := 0x1.921fb54442d18p+1%float.

(** The literal [0.01] of the tile-inclusion test. *)
Definition margin : float := 0x1.47ae147ae147bp-7%float.

(** [float(i)] as performed implicitly when an [int] meets a [float]:
    round to nearest, ties to even; [OverflowError] when the integer is
    too large for a binary64. *)
Definition of_int (i : Z) : result float :=
  match binary_normalize prec emax i 0 false with
  | S754_infinity _ => Raise OverflowError
  | sf => OK (SF2Prim sf)
  end.

(** [int(f)]: truncation toward zero; [ValueError] on NaN,
    [OverflowError] on an infinity. *)
Definition to_int (f : float) : result Z :=
  match Prim2SF f with
  | S754_zero _ => OK 0%Z
  | S754_nan => Raise ValueError
  | S754_infinity _ => Raise OverflowError
  | S754_finite s m e =>
      let a := match e with
               | Zneg p => Z.shiftr (Zpos m) (Zpos p)
               | _ => Z.shiftl (Zpos m) e
               end in
      OK (if s then (- a)%Z else a)
  end.

(** [a / b] on floats: [ZeroDivisionError] when the divisor is zero
    (of either sign), the IEEE quotient otherwise. *)
Definition div (a b : float) : result float :=
  if PrimFloat.eqb b 0%float then Raise ZeroDivisionError
  else OK (PrimFloat.div a b).

(** [2.0 ** zoom] for an integer [zoom]: the exponent is first converted
    to a float (which fails for an integer beyond the binary64 range); the
    power is exact where representable, [0.0] on underflow, and
    [OverflowError] on overflow. *)
Definition pow2 (zoom : Z) : result float :=
  let! _ := of_int zoom in
  let r := Z.ldexp 1%float zoom in
  if PrimFloat.is_infinity r then Raise OverflowError else OK r.

(** [math.radians] and [math.degrees] multiply by a constant that is
    itself computed in binary64. *)
Definition radians (x : float) : float := (x * (pi / 180))%float.
Definition degrees (x : float) : float := (x * (180 / pi))%float.

(** The wrapper every one-argument function of Python's [math] module goes
    through: a NaN produced from a number is a domain error, an infinity
    produced from a finite number is a range error (for the functions that
    may overflow) or a domain error (for the others). *)
Definition math_1 (can_overflow : bool) (func : float -> float) (x : float)
  : result float :=
  let r := func x in
  if PrimFloat.is_nan r && negb (PrimFloat.is_nan x) then Raise ValueError
  else if PrimFloat.is_infinity r && PrimFloat.is_finite x then
    Raise (if can_overflow then OverflowError else ValueError)
  else OK r.

End PyFloat.

(** The C library functions used by the script. *)
Record libm : Set := Libm {
  c_tan : float -> float;
  c_asinh : float -> float;
  c_sinh : float -> float;
  c_atan : float -> float
}.

(** ** Coordinate transforms *)

Section Transforms.

Variable L : libm.

Definition math_tan : float -> result float := PyFloat.math_1 false (c_tan L).
Definition math_asinh : float -> result float := PyFloat.math_1 false (c_asinh L).
Definition math_sinh : float -> result float := PyFloat.math_1 true (c_sinh L).
Definition math_atan : float -> result float := PyFloat.math_1 false (c_atan L).

(** [x = int((lon + 180.0) / 360.0 * n)] *)
Definition tile_x_of (lon n : float) : result Z :=
  PyFloat.to_int ((lon + 180) / 360 * n)%float.

(** [y = int((1.0 - math.asinh(math.tan(lat_rad)) / math.pi) / 2.0 * n)] *)
Definition tile_y_of (lat_rad n : float) : result Z :=
  let! t := math_tan lat_rad in
  let! a := math_asinh t in
  PyFloat.to_int ((1 - a / PyFloat.pi) / 2 * n)%float.

Definition lon_lat_to_tile (lon lat : float) (zoom : Z) : result (Z * Z) :=
  let lat_rad := PyFloat.radians lat in
  let! n := PyFloat.pow2 zoom in
  let! x := tile_x_of lon n in
  let! y := tile_y_of lat_rad n in
  OK (x, y).

(** [lon = x / n * 360.0 - 180.0] *)
Definition tile_lon_of (x : Z) (n : float) : result float :=
  let! xf := PyFloat.of_int x in
  let! q := PyFloat.div xf n in
  OK (q * 360 - 180)%float.

(** [lat = math.degrees(math.atan(math.sinh(math.pi * (1 - 2 * y / n))))] *)
Definition tile_lat_of (y : Z) (n : float) : result float :=
  let! yf := PyFloat.of_int (2 * y) in
  let! q := PyFloat.div yf n in
  let! s := math_sinh (PyFloat.pi * (1 - q))%float in
  let! lat_rad := math_atan s in
  OK (PyFloat.degrees lat_rad).

Definition tile_to_lon_lat (x y zoom : Z) : result (float * float) :=
  let! n := PyFloat.pow2 zoom in
  let! lon := tile_lon_of x n in
  let! lat := tile_lat_of y n in
  OK (lon, lat).

(** One pixel coordinate: [int((v - v0) / range * tile_size)]. *)
Definition pixel_of (v v0 range : float) (tile_size : Z) : result Z :=
  let! q := PyFloat.div (v - v0)%float range in
  let! ts := PyFloat.of_int tile_size in
  PyFloat.to_int (q * ts)%float.

Definition lon_lat_to_pixel (lon lat : float) (zoom tile_x tile_y tile_size : Z)
  : result (Z * Z) :=
  let! '(tile_lon, tile_lat) := tile_to_lon_lat tile_x tile_y zoom in
  let! '(tile_lon_next, tile_lat_next) := tile_to_lon_lat (tile_x + 1) (tile_y + 1) zoom in
  let lon_range := (tile_lon_next - tile_lon)%float in
  let lat_range := (tile_lat_next - tile_lat)%float in
  let! px := pixel_of lon tile_lon lon_range tile_size in
  let! py := pixel_of lat tile_lat lat_range tile_size in
  OK (px, py).

End Transforms.


(** ** Style resolver *)

Local Open Scope string_scope.

(** The entries of the dictionary literal of [get_lift_color]. *)
Definition color_table : list (string * string) :=
  [ ("gondola", "#FF0000");
    ("cable_car", "#FF0000");
    ("chair_lift", "#0066FF");
    ("drag_lift", "#00CC00");
    ("t-bar", "#00CC00");
    ("j-bar", "#00CC00");
    ("platter", "#00CC00");
    ("magic_carpet", "#9933FF");
    ("rope_tow", "#00CC00") ].

Definition colors : gmap string string := list_to_map color_table.

(** [colors.get(lift_type, '#888888')] *)
Definition get_lift_color (lift_type : string) : string :=
  default "#888888" (colors !! lift_type).

Definition get_lift_width (zoom : Z) : Z :=
  if (zoom <=? 11)%Z then 1
  else if (zoom <=? 13)%Z then 2
  else if (zoom <=? 15)%Z then 3
  else 4.

(** ** Input data

    A loaded GeoJSON document, as far as the script reads it: each feature
    has [geometry.coordinates], a list of positions (each a list of
    numbers, read as floats; Python's JSON reader also accepts the literals
    [NaN] and [Infinity]), and a [properties] dictionary. *)

Record feature : Type := Feature {
  coordinates : list (list float);
  properties : gmap string string
}.

Record geojson : Type := GeoJSON {
  features : list feature
}.

(** [feature['properties'].get('type', 'chair_lift')] *)
Definition lift_type_of (f : feature) : string :=
  default "chair_lift" (properties f !! "type").

Local Close Scope string_scope.

(** ** Bounding box *)

Record bbox : Set := BBox {
  min_lon : float;
  min_lat : float;
  max_lon : float;
  max_lat : float
}.

(** [c[i]] on a list. *)
Definition item (i : nat) (c : list float) : result float :=
  match nth_error c i with
  | Some v => OK v
  | None => Raise IndexError
  end.

(** The elements of a generator expression [c[i] for c in all_coords],
    in order, up to the first one that raises. *)
Fixpoint items (i : nat) (cs : list (list float)) : result (list float) :=
  match cs with
  | [] => OK []
  | c :: cs' =>
      let! v := item i c in
      let! vs := items i cs' in
      OK (v :: vs)
  end.

(** Python's [min] and [max] keep the first element and replace it only
    by an element that compares strictly smaller (larger). *)
Fixpoint min_from (cur : float) (l : list float) : float :=
  match l with
  | [] => cur
  | v :: l' => min_from (if PrimFloat.ltb v cur then v else cur) l'
  end.

Fixpoint max_from (cur : float) (l : list float) : float :=
  match l with
  | [] => cur
  | v :: l' => max_from (if PrimFloat.ltb cur v then v else cur) l'
  end.

Definition py_min (l : list float) : result float :=
  match l with
  | [] => Raise ValueError
  | v :: l' => OK (min_from v l')
  end.

Definition py_max (l : list float) : result float :=
  match l with
  | [] => Raise ValueError
  | v :: l' => OK (max_from v l')
  end.

(** [all_coords]: the positions of all features, concatenated. *)
Definition all_coords (g : geojson) : list (list float) :=
  concat (map coordinates (features g)).

Definition bounding_box (g : geojson) : result bbox :=
  let cs := all_coords g in
  let! lo_lon := (let! l := items 0 cs in py_min l) in
  let! hi_lon := (let! l := items 0 cs in py_max l) in
  let! lo_lat := (let! l := items 1 cs in py_min l) in
  let! hi_lat := (let! l := items 1 cs in py_max l) in
  OK (BBox lo_lon lo_lat hi_lon hi_lat).

(** ** Tile range and rasterizer *)

Record tile_range : Set := TileRange {
  min_tile_x : Z;
  max_tile_x : Z;
  min_tile_y : Z;
  max_tile_y : Z
}.

(** A polyline handed to [draw.line]. *)
Record line : Set := Line {
  line_pixels : list (Z * Z);
  line_fill : string;
  line_width : Z
}.

(** A tile image: its side and the lines drawn on the transparent
    canvas, in drawing order. *)
Record image : Set := Image {
  image_size : Z;
  image_lines : list line
}.

(** [range(lo, hi)] *)
Definition range (lo hi : Z) : list Z := seqZ lo (hi - lo).

(** [for lon, lat in coords]: a position must have exactly two items. *)
Definition unpack2 (c : list float) : result (float * float) :=
  match c with
  | [lon; lat] => OK (lon, lat)
  | _ => Raise ValueError
  end.

(** The test "is the point near this tile". *)
Definition near_tile (nw se : float * float) (lon lat : float) : bool :=
  let '(tile_lon_nw, tile_lat_nw) := nw in
  let '(tile_lon_se, tile_lat_se) := se in
  (PrimFloat.leb (tile_lon_nw - PyFloat.margin) lon
   && PrimFloat.leb lon (tile_lon_se + PyFloat.margin)
   && (PrimFloat.leb (tile_lat_se - PyFloat.margin) lat
       && PrimFloat.leb lat (tile_lat_nw + PyFloat.margin)))%float.

Section Tiles.

Variable L : libm.

(** The two [lon_lat_to_tile] calls at the head of the zoom loop. *)
Definition plan_tile_range (b : bbox) (zoom : Z) : result tile_range :=
  let! '(lo_x, hi_y) := lon_lat_to_tile L (min_lon b) (min_lat b) zoom in
  let! '(hi_x, lo_y) := lon_lat_to_tile L (max_lon b) (max_lat b) zoom in
  OK (TileRange lo_x hi_x lo_y hi_y).

Section OneTile.

Variables zoom tile_x tile_y tile_size : Z.
Variables nw se : float * float.

(** The list [pixels] built by the loop over one feature's positions. *)
Fixpoint feature_pixels (coords : list (list float)) : result (list (Z * Z)) :=
  match coords with
  | [] => OK []
  | c :: rest =>
      let! '(lon, lat) := unpack2 c in
      let! here :=
        (if near_tile nw se lon lat then
           let! p := lon_lat_to_pixel L lon lat zoom tile_x tile_y tile_size in
           OK [p]
         else OK []) in
      let! more := feature_pixels rest in
      OK (here ++ more)
  end.

(** The lines one feature adds to the canvas: one if at least two pixels
    were collected, none otherwise. *)
Definition draw_feature (f : feature) : result (list line) :=
  let color := get_lift_color (lift_type_of f) in
  let! pixels := feature_pixels (coordinates f) in
  if (2 <=? length pixels)%nat
  then OK [Line pixels color (get_lift_width zoom)]
  else OK [].

Fixpoint draw_features (fs : list feature) : result (list line) :=
  match fs with
  | [] => OK []
  | f :: fs' =>
      let! ls := draw_feature f in
      let! more := draw_features fs' in
      OK (ls ++ more)
  end.

End OneTile.

(** The body of the innermost loop up to [img.save]: the image of one tile. *)
Definition render_tile (g : geojson) (zoom tile_x tile_y tile_size : Z)
  : result image :=
  let! nw := tile_to_lon_lat L tile_x tile_y zoom in
  let! se := tile_to_lon_lat L (tile_x + 1) (tile_y + 1) zoom in
  let! ls := draw_features zoom tile_x tile_y tile_size nw se (features g) in
  OK (Image tile_size ls).

End Tiles.

(** ** The generation run

    What [generate_tiles] does to the outside world is recorded as a
    trace of events; the run ends normally or with an uncaught
    exception.  File-system and imaging calls are taken to succeed. *)

Inductive message : Type :=
| MsgNotFound (mountain_id : string)
| MsgLoaded (count : nat) (mountain_id : string)
| MsgBounds (b : bbox)
| MsgZoom (zoom : Z)
| MsgTilesX (lo hi : Z)
| MsgTilesY (lo hi : Z)
| MsgGenerated (tile_count : Z)
| MsgDone (mountain_id : string).

Inductive event : Type :=
| Stdout (m : message)
| MkOutputDir (mountain_id : string)
| MkZoomDir (mountain_id : string) (zoom : Z)
| MkXDir (mountain_id : string) (zoom tile_x : Z)
| SaveTile (mountain_id : string) (zoom tile_x tile_y : Z) (img : image).

Module IO.

Definition io (A : Type) : Type := (list event * result A)%type.

Definition ret {A : Type} (a : A) : io A := ([], OK a).

Definition bind {A B : Type} (m : io A) (k : A -> io B) : io B :=
  match m with
  | (t, OK a) => let '(t', r) := k a in (t ++ t', r)
  | (t, Raise e) => (t, Raise e)
  end.

Definition emit (e : event) : io unit := ([e], OK tt).

Definition lift {A : Type} (r : result A) : io A := ([], r).

(** A [for] loop that threads an accumulator through its body. *)
Fixpoint for_fold {A S : Type} (l : list A) (body : A -> S -> io S) (s : S)
  : io S :=
  match l with
  | [] => ret s
  | a :: l' => bind (body a s) (for_fold l' body)
  end.

Definition trace {A : Type} (m : io A) : list event := fst m.
Definition outcome {A : Type} (m : io A) : result A := snd m.

End IO.

Declare Scope io_scope.
Delimit Scope io_scope with io.
Notation "'do!' x ':=' c 'in' k" := (IO.bind c (fun x => k))
  (at level 10, x name, c at level 200, k at level 200) : io_scope.
Notation "'do!' ' p ':=' c 'in' k" := (IO.bind c (fun p => k))
  (at level 10, p pattern, c at level 200, k at level 200) : io_scope.
Notation "c ';;' k" := (IO.bind c (fun _ => k))
  (at level 100, k at level 200, right associativity) : io_scope.

Section Run.

Variable L : libm.

Local Open Scope io_scope.

(** One tile: render, save, count. *)
Definition tile_step (g : geojson) (mountain_id : string) (zoom tile_size tile_x : Z)
    (tile_y : Z) (tile_count : Z) : IO.io Z :=
  do! img := IO.lift (render_tile L g zoom tile_x tile_y tile_size) in
  IO.emit (SaveTile mountain_id zoom tile_x tile_y img) ;;
  IO.ret (tile_count + 1)%Z.

(** One column of tiles. *)
Definition column_step (g : geojson) (mountain_id : string) (zoom tile_size : Z)
    (r : tile_range) (tile_x : Z) (tile_count : Z) : IO.io Z :=
  IO.emit (MkXDir mountain_id zoom tile_x) ;;
  IO.for_fold (range (min_tile_y r) (max_tile_y r + 1))
    (tile_step g mountain_id zoom tile_size tile_x) tile_count.

(** One zoom level. *)
Definition zoom_step (g : geojson) (mountain_id : string) (tile_size : Z) (b : bbox)
    (zoom : Z) (_ : unit) : IO.io unit :=
  IO.emit (Stdout (MsgZoom zoom)) ;;
  do! r := IO.lift (plan_tile_range L b zoom) in
  IO.emit (Stdout (MsgTilesX (min_tile_x r) (max_tile_x r))) ;;
  IO.emit (Stdout (MsgTilesY (min_tile_y r) (max_tile_y r))) ;;
  IO.emit (MkZoomDir mountain_id zoom) ;;
  do! tile_count :=
    IO.for_fold (range (min_tile_x r) (max_tile_x r + 1))
      (column_step g mountain_id zoom tile_size r) 0%Z in
  IO.emit (Stdout (MsgGenerated tile_count)).

(** [generate_tiles]; [file] is the content of the GeoJSON file of
    [mountain_id], or [None] when the file does not exist. *)
Definition generate_tiles (file : option geojson) (mountain_id : string)
    (zoom_min zoom_max tile_size : Z) : IO.io unit :=
  match file with
  | None => IO.emit (Stdout (MsgNotFound mountain_id))
  | Some g =>
      IO.emit (Stdout (MsgLoaded (length (features g)) mountain_id)) ;;
      IO.emit (MkOutputDir mountain_id) ;;
      do! b := IO.lift (bounding_box g) in
      IO.emit (Stdout (MsgBounds b)) ;;
      IO.for_fold (range zoom_min (zoom_max + 1))
        (zoom_step g mountain_id tile_size b) tt ;;
      IO.emit (Stdout (MsgDone mountain_id))
  end.

(** [main]: the command line supplies the mountain and, optionally, the
    zoom range and the tile size. *)
Definition main (file : option geojson) (mountain_id : string)
    (zoom_min zoom_max tile_size : option Z) : IO.io unit :=
  generate_tiles file mountain_id
    (default 10%Z zoom_min) (default 16%Z zoom_max) (default 256%Z tile_size).

End Run.

(** ** A software mathematics library

    A plain binary64 implementation of the four C functions (argument
    reduction followed by a truncated series).  It plays the part of the
    platform's C library when the model is run on concrete inputs; every
    general statement below is quantified over all [libm]s instead. *)

Module SoftLibm.

Local Open Scope float_scope.

Definition ln2 : float := 0x1.62e42fefa39efp-1.
Definition half_pi : float := PyFloat.pi / 2.

(** Nearest integer of a finite float of moderate size; [0] otherwise. *)
Definition nearest (x : float) : Z :=
  match PyFloat.to_int (if x <? 0 then x - 0.5 else x + 0.5) with
  | OK k => k
  | Raise _ => 0%Z
  end.

Definition float_of_Z (k : Z) : float :=
  match PyFloat.of_int k with
  | OK f => f
  | Raise _ => nan
  end.

(** [1 + r/i (1 + r/(i+1) (1 + ...))], the series of [exp]. *)
Fixpoint exp_tail (k : nat) (i r : float) : float :=
  match k with
  | O => 1
  | S k' => 1 + r / i * exp_tail k' (i + 1) r
  end.

Definition exp (x : float) : float :=
  if is_nan x then x
  else if 1000 <? x then infinity
  else if x <? -1000 then 0
  else
    let k := nearest (x / ln2) in
    let r := x - float_of_Z k * ln2 in
    Z.ldexp (exp_tail 26 1 r) k.

(** [1 + u/(i(i+1)) (1 + u/((i+2)(i+3)) (1 + ...))] with [u = x^2] for
    [sinh] and [u = -x^2] for [sin] and [cos]. *)
Fixpoint even_tail (k : nat) (i u : float) : float :=
  match k with
  | O => 1
  | S k' => 1 + u / (i * (i + 1)) * even_tail k' (i + 2) u
  end.

Definition sinh (x : float) : float :=
  if abs x <? 0.5 then x * even_tail 12 2 (x * x)
  else (exp x - exp (- x)) / 2.

Definition sin_small (r : float) : float := r * even_tail 14 2 (- (r * r)).
Definition cos_small (r : float) : float := even_tail 14 1 (- (r * r)).

(** The part of pi/2 that [half_pi] leaves out. *)
Definition half_pi_lo : float := 0x1.1a62633145c07p-54.

(** [tan] on [-pi/2, pi/2]; past pi/4 it is the cotangent of the
    complement, so that the pole is approached accurately. *)
Definition tan_reduced (r : float) : float :=
  let a := abs r in
  let t := if a <? half_pi / 2 then sin_small a / cos_small a
           else
             let d := (half_pi - a) + half_pi_lo in
             cos_small d / sin_small d in
  if r <? 0 then - t else if r =? 0 then r else t.

Definition tan (x : float) : float :=
  if is_nan x || is_infinity x then nan
  else if abs x <=? half_pi then tan_reduced x
  else
    let k := nearest (x / PyFloat.pi) in
    tan_reduced (x - float_of_Z k * PyFloat.pi).

(** [1/d - t2 (1/(d+2) - t2 (...))], the series of [atan t / t]. *)
Fixpoint atan_tail (k : nat) (d t2 : float) : float :=
  match k with
  | O => 1 / d
  | S k' => 1 / d - t2 * atan_tail k' (d + 2) t2
  end.

Definition atan_halve (a : float) : float := a / (1 + PrimFloat.sqrt (1 + a * a)).

(** [atan] on [0, 1]: two halvings of the angle, then the series. *)
Definition atan_unit (a : float) : float :=
  let t := atan_halve (atan_halve a) in
  4 * (t * atan_tail 18 1 (t * t)).

Definition atan (x : float) : float :=
  if is_nan x then x
  else
    let a := abs x in
    let r := if 1 <? a then half_pi - atan_unit (1 / a) else atan_unit a in
    if x <? 0 then - r else if x =? 0 then x else r.

(** [1 + t2/3 + t2^2/5 + ...] written as [1/d + t2 (1/(d+2) + ...)]. *)
Fixpoint atanh_tail (k : nat) (d t2 : float) : float :=
  match k with
  | O => 1 / d
  | S k' => 1 / d + t2 * atanh_tail k' (d + 2) t2
  end.

(** Natural logarithm of a positive finite float. *)
Definition ln (w : float) : float :=
  let '(m, e) := Z.frexp w in
  let '(m, e) := if m <? 0x1.6a09e667f3bcdp-1 then (2 * m, (e - 1)%Z) else (m, e) in
  let t := (m - 1) / (m + 1) in
  float_of_Z e * ln2 + 2 * t * atanh_tail 16 1 (t * t).

Definition log1p (u : float) : float :=
  let w := 1 + u in
  if w =? 1 then u else ln w * u / (w - 1).

Definition asinh (x : float) : float :=
  if is_nan x || is_infinity x then x
  else
    let a := abs x in
    let r := if 0x1p+28 <? a then ln a + ln2
             else log1p (a + a * a / (1 + PrimFloat.sqrt (1 + a * a))) in
    if x <? 0 then - r else if x =? 0 then x else r.

Definition soft : libm :=
  {| c_tan := tan; c_asinh := asinh; c_sinh := sinh; c_atan := atan |}.

End SoftLibm.

(** ** The same formulas over the real numbers *)

Module Exact.

Import Reals.
Local Open Scope R_scope.

Definition radians (x : R) : R := x * (PI / 180).
Definition degrees (x : R) : R := x * (180 / PI).

(** [int(r)]: truncation toward zero. *)
Definition to_int (r : R) : Z :=
  if Rle_dec 0 r then Int_part r else (- Int_part (- r))%Z.

(** [2.0 ** zoom] *)
Definition pow2 (zoom : Z) : R := powerRZ 2 zoom.

Definition lon_lat_to_tile (lon lat : R) (zoom : Z) : Z * Z :=
  let lat_rad := radians lat in
  let n := pow2 zoom in
  let x := to_int ((lon + 180) / 360 * n) in
  let y := to_int ((1 - arcsinh (tan lat_rad) / PI) / 2 * n) in
  (x, y).

Definition tile_to_lon_lat (x y zoom : Z) : R * R :=
  let n := pow2 zoom in
  let lon := IZR x / n * 360 - 180 in
  let lat_rad := atan (sinh (PI * (1 - IZR (2 * y) / n))) in
  (lon, degrees lat_rad).

Record bbox : Type := BBox {
  min_lon : R;
  min_lat : R;
  max_lon : R;
  max_lat : R
}.

Definition plan_tile_range (b : bbox) (zoom : Z) : tile_range :=
  let '(lo_x, hi_y) := lon_lat_to_tile (min_lon b) (min_lat b) zoom in
  let '(hi_x, lo_y) := lon_lat_to_tile (max_lon b) (max_lat b) zoom in
  TileRange lo_x hi_x lo_y hi_y.



End Exact.

(** ** Concrete inputs

    The example of the design document (one chair lift near Crystal
    Mountain) and a few degenerate inputs, used to run the model. *)

Module Examples.

Local Open Scope float_scope.

(** [(-121.474, 46.935)] and [(-121.470, 46.930)] *)
Definition chair_lon : float := -0x1.e5e5604189375p+6.
Definition chair_lat : float := 0x1.777ae147ae148p+5.
Definition chair_top : list float := [chair_lon; chair_lat].
Definition chair_bottom : list float := [-0x1.e5e147ae147aep+6; 0x1.7770a3d70a3d7p+5].

Definition chair_lift : feature :=
  Feature [chair_top; chair_bottom] {[ "type"%string := "chair_lift"%string ]}.

(** The same line without a [type] property. *)
Definition untyped_lift : feature := Feature [chair_top; chair_bottom] ∅.

(** A feature with a single position. *)
Definition single_point : feature := Feature [chair_top] ∅.

Definition crystal : geojson := GeoJSON [chair_lift].

(** Its bounding box. *)
Definition crystal_box : bbox :=
  BBox (-0x1.e5e5604189375p+6) 0x1.7770a3d70a3d7p+5
       (-0x1.e5e147ae147aep+6) 0x1.777ae147ae148p+5.

(** A corner as [tile_to_lon_lat] computes it with the software library. *)
Definition corner (x y zoom : Z) : float * float :=
  match tile_to_lon_lat SoftLibm.soft x y zoom with
  | OK p => p
  | Raise _ => (nan, nan)
  end.

(** The tile of zoom 12 that holds the lift. *)
Definition crystal_nw : float * float := Eval vm_compute in corner 665 1441 12.
Definition crystal_se : float * float := Eval vm_compute in corner 666 1442 12.

(** The first tile of zoom 60: its two corners have the same longitude. *)
Definition deep_nw : float * float := Eval vm_compute in corner 0 0 60.
Definition deep_se : float * float := Eval vm_compute in corner 1 1 60.

(** A box that is a single point on the antimeridian. *)
Definition antimeridian_box : bbox := BBox 180 0 180 0.

(** The float just below 11.25, the west edge of column 17 at zoom 5. *)
Definition below_edge : float := 0x1.67fffffffffffp+3.

End Examples.

(** * The scripts that produce the collections *)

(** ** [parse-ski-lifts.py]

    The script that extracts the lifts of each mountain from an OSM file.
    The file reaches the model as the sequence of elements for which the
    incremental parser reports an [end] event ([start] events are skipped
    by the loop), each with the attributes the script reads. *)

Module ParseSkiLifts.

Local Open Scope string_scope.

(** An entry of [MOUNTAINS]; [bbox] is
    [(min_lat, min_lon, max_lat, max_lon)]. *)
Record config : Set := Config {
  name : string;
  center : float * float;
  bbox : float * float * float * float
}.

(** [MOUNTAINS], in the order of the dict literal. *)
Definition MOUNTAINS : list (string * config) :=
  [("baker",
    Config "Mt. Baker"
      (0x1.86db22d0e5604p+5, -0x1.e6ad0e5604189p+6)%float
      (0x1.86851eb851eb8p+5, -0x1.e6e147ae147aep+6,
       0x1.8733333333333p+5, -0x1.e670a3d70a3d7p+6)%float);
   ("stevens",
    Config "Stevens Pass"
      (0x1.7df5c28f5c28fp+5, -0x1.e45b22d0e5604p+6)%float
      (0x1.7d9999999999ap+5, -0x1.e48f5c28f5c29p+6,
       0x1.7e51eb851eb85p+5, -0x1.e428f5c28f5c3p+6)%float);
   ("crystal",
    Config "Crystal Mountain"
      (0x1.777ae147ae148p+5, -0x1.e5e5604189375p+6)%float
      (0x1.771eb851eb852p+5, -0x1.e6147ae147ae1p+6,
       0x1.77d70a3d70a3dp+5, -0x1.e5ae147ae147bp+6)%float);
   ("snoqualmie",
    Config "Summit at Snoqualmie"
      (0x1.7b6c8b439581p+5, -0x1.e5a6e978d4fdfp+6)%float
      (0x1.7b0a3d70a3d71p+5, -0x1.e5d70a3d70a3dp+6,
       0x1.7bd70a3d70a3dp+5, -0x1.e570a3d70a3d7p+6)%float)].

Definition is_in_bbox (lat lon : float) (bbox : float * float * float * float) : bool :=
  let '(min_lat, min_lon, max_lat, max_lon) := bbox in
  (PrimFloat.leb min_lat lat && PrimFloat.leb lat max_lat)
  && (PrimFloat.leb min_lon lon && PrimFloat.leb lon max_lon).

(** An element as the loop of [parse_osm_file] sees it at its [end]
    event: the tag and the attributes the script reads, with [lat] and
    [lon] already converted by [float]. *)
Inductive elem : Set :=
| node (id : string) (lat lon : float)
| way (id : string)
| nd (ref : string)
| tag (k v : string)
| other (tag_name : string).

(** A lift feature of the output. *)
Record lift : Set := Lift {
  coordinates : list (list float);
  id : string;
  type : string;
  lift_name : string;
  occupancy : option string;
  capacity : option string;
  duration : option string;
  heating : option string;
  bubble : option string
}.

(** The local variables of [parse_osm_file]; [mountain_lifts] is the
    [defaultdict(list)], its keys in insertion order. *)
Record state : Type := State {
  nodes : gmap string (float * float);
  mountain_lifts : list (string * list lift);
  way_count : Z;
  lift_count : Z;
  current_way : option string;
  current_way_nodes : list string;
  current_way_tags : gmap string string
}.

Definition initial : state := State ∅ [] 0 0 None [] ∅.

(** What the function prints: the opening line, the progress line after
    every 10000 ways and the closing line. *)
Inductive message : Set :=
| Parsing
| Processed (way_count lift_count : Z)
| Complete (lift_count : Z) (mountains : nat).

(** [mountain_lifts[mountain_id].append(lift_feature)] *)
Fixpoint append_lift (mountain_id : string) (f : lift) (d : list (string * list lift))
  : list (string * list lift) :=
  match d with
  | [] => [(mountain_id, [f])]
  | (k, fs) :: d' =>
      if String.eqb k mountain_id then (k, (fs ++ [f])%list) :: d'
      else (k, fs) :: append_lift mountain_id f d'
  end.

(** The types that are skipped. *)
Definition skipped : list string := ["station"; "zip_line"; "goods"].

(** [coords]: the positions of the referenced nodes that are known. *)
Definition known_coords (nodes : gmap string (float * float)) (refs : list string)
  : list (float * float) :=
  omap (fun node_ref => nodes !! node_ref) refs.

(** The first mountain, in the order of [MOUNTAINS], whose box holds one
    of the coordinates. *)
Definition first_mountain (coords : list (float * float)) : option string :=
  fst <$> List.find
            (fun m => existsb (fun '(lat, lon) => is_in_bbox lat lon (bbox (snd m))) coords)
            MOUNTAINS.

(** The feature built for the way under [current_way], with the mountain
    it is filed under; [None] when the way is passed over. *)
Definition lift_of (nodes : gmap string (float * float)) (current_way : string)
    (refs : list string) (tags : gmap string string) : option (string * lift) :=
  match tags !! "aerialway" with
  | None => None
  | Some aerialway_type =>
      if bool_decide (aerialway_type ∈ skipped) then None
      else
        let coords := known_coords nodes refs in
        match coords with
        | [] => None
        | _ :: _ =>
            match first_mountain coords with
            | None => None
            | Some mountain_id =>
                Some (mountain_id,
                      Lift (map (fun '(lat, lon) => [lon; lat]) coords)
                        current_way
                        aerialway_type
                        (default ("Lift " ++ current_way) (tags !! "name"))
                        (tags !! "aerialway:occupancy")
                        (tags !! "aerialway:capacity")
                        (tags !! "aerialway:duration")
                        (tags !! "aerialway:heating")
                        (tags !! "aerialway:bubble"))
            end
        end
  end.

(** The body of the loop for an [end] event. *)
Definition step (s : state) (e : elem) : state :=
  match e with
  | node node_id lat lon =>
      State (<[node_id := (lat, lon)]> (nodes s)) (mountain_lifts s) (way_count s)
        (lift_count s) (current_way s) (current_way_nodes s) (current_way_tags s)
  | way way_id =>
      let '(lifts, count) :=
        match current_way s with
        | None => (mountain_lifts s, lift_count s)
        | Some w =>
            match lift_of (nodes s) w (current_way_nodes s) (current_way_tags s) with
            | Some (mountain_id, f) =>
                (append_lift mountain_id f (mountain_lifts s), (lift_count s + 1)%Z)
            | None => (mountain_lifts s, lift_count s)
            end
        end in
      State (nodes s) lifts (way_count s + 1)%Z count (Some way_id) [] ∅
  | nd ref =>
      match current_way s with
      | Some _ =>
          State (nodes s) (mountain_lifts s) (way_count s) (lift_count s) (current_way s)
            (current_way_nodes s ++ [ref])%list (current_way_tags s)
      | None => s
      end
  | tag k v =>
      match current_way s with
      | Some _ =>
          State (nodes s) (mountain_lifts s) (way_count s) (lift_count s) (current_way s)
            (current_way_nodes s) (<[k := v]> (current_way_tags s))
      | None => s
      end
  | other _ => s
  end.

(** The progress line an [end] event causes, if any. *)
Definition progress (s : state) (e : elem) : list message :=
  match e with
  | way _ =>
      let s' := step s e in
      if (way_count s' mod 10000 =? 0)%Z then [Processed (way_count s') (lift_count s')]
      else []
  | _ => []
  end.

(** The loop over the [end] events of the file, from the local variables
    [s]: the lines printed and the variables at the end. *)
Fixpoint loop (s : state) (events : list elem) : list message * state :=
  match events with
  | [] => ([], s)
  | e :: events' =>
      let '(out, s') := loop (step s e) events' in
      ((progress s e ++ out)%list, s')
  end.

(** [parse_osm_file], on the [end] events the incremental parser reports
    after the opening of the root element: the lines printed and the
    dict returned. *)
Definition parse_osm_file (events : list elem) : list message * list (string * list lift) :=
  let '(out, s) := loop initial events in
  ((Parsing :: out ++ [Complete (lift_count s) (length (mountain_lifts s))])%list,
   mountain_lifts s).

(** An OSM document: nodes, then ways with their [nd] and [tag]
    children; and the [end] events an incremental parser reports for it
    (children before their parent, the root element last). *)
Record way_element : Set := Way {
  way_id : string;
  way_refs : list string;
  way_tags : list (string * string)
}.

Definition node_event (n : string * float * float) : elem :=
  let '(node_id, lat, lon) := n in node node_id lat lon.

Definition way_events (w : way_element) : list elem :=
  (map nd (way_refs w) ++ map (fun kv => tag kv.1 kv.2) (way_tags w)
   ++ [way (way_id w)])%list.

Definition document_events (node_elements : list (string * float * float))
    (ways : list way_element) : list elem :=
  (map node_event node_elements ++ flat_map way_events ways ++ [other "osm"])%list.

(** The same document read element by element: the table of its nodes,
    the tags of a way as a dict. *)
Definition node_table (node_elements : list (string * float * float))
  : gmap string (float * float) :=
  fold_left (fun t n => let '(node_id, lat, lon) := n in <[node_id := (lat, lon)]> t)
    node_elements ∅.

Definition tag_table (tags : list (string * string)) : gmap string string :=
  fold_left (fun t kv => <[kv.1 := kv.2]> t) tags ∅.

(** The position [[lon, lat]] read back as [(lat, lon)]. *)
Definition position_of (c : list float) : option (float * float) :=
  match c with
  | [lon; lat] => Some (lat, lon)
  | _ => None
  end.

(** A lift as the script files it under [mountain_id]: it has positions,
    each a pair, its type is not a skipped one, and the mountain is the
    first whose box holds one of its positions. *)
Definition filed_under (mountain_id : string) (f : lift) : Prop :=
  coordinates f <> []
  /\ Forall (fun c => length c = 2%nat) (coordinates f)
  /\ (type f ∉ skipped)
  /\ first_mountain (omap position_of (coordinates f)) = Some mountain_id.

(** What [generate_geojson_files] does: it makes the output directory,
    and for each mountain it warns, or writes a file and prints a line. *)
Inductive output : Set :=
| MakeDirs
| NoLifts (mountain_id : string)
| WriteFile (mountain_id mountain_name : string) (lift_count : nat) (features : list lift)
| Written (mountain_id : string) (lift_count : nat).

(** How it ends: normally, or with the [KeyError] of [MOUNTAINS[mountain_id]]. *)
Inductive ending : Set :=
| Returned
| KeyError (key : string).

(** [MOUNTAINS[mountain_id]] *)
Definition mountain_config (mountain_id : string) : option config :=
  snd <$> List.find (fun m => String.eqb (fst m) mountain_id) MOUNTAINS.

(** The loop over [mountain_lifts.items()]. *)
Fixpoint write_files (d : list (string * list lift)) : list output * ending :=
  match d with
  | [] => ([], Returned)
  | (mountain_id, lifts) :: d' =>
      match lifts with
      | [] => let '(out, r) := write_files d' in (NoLifts mountain_id :: out, r)
      | _ :: _ =>
          match mountain_config mountain_id with
          | None => ([], KeyError mountain_id)
          | Some c =>
              let '(out, r) := write_files d' in
              (WriteFile mountain_id (name c) (length lifts) lifts
                 :: Written mountain_id (length lifts) :: out, r)
          end
      end
  end.

Definition generate_geojson_files (d : list (string * list lift)) : list output * ending :=
  let '(out, r) := write_files d in (MakeDirs :: out, r).

End ParseSkiLifts.

(** ** [fetch-lift-geojson.py]

    The conversion of an Overpass answer into a feature collection. The
    answer reaches the model as the list under ["elements"], each element
    with the keys the script reads. *)

Module FetchLiftGeojson.

Local Open Scope string_scope.

(** [SKIP_TYPES], a set used for membership only. *)
Definition SKIP_TYPES : list string := ["station"; "zip_line"; "goods"; "pylon"].

(** An element of the Overpass answer, as far as the script reads it:
    its ["type"], and for a node its id and position, for a way its id
    and, when present, its tags and its node references. *)
Inductive element : Type :=
| node_element (id : Z) (lat lon : float)
| way_element (id : Z) (tags : option (gmap string string)) (nodes : option (list Z))
| other_element.

(** A feature of the output. *)
Record lift : Set := Lift {
  coordinates : list (list float);
  id : string;
  type : string;
  name : string;
  occupancy : option string;
  capacity : option string;
  duration : option string;
  heating : option string;
  bubble : option string
}.

(** The returned feature collection. *)
Record collection : Set := Collection {
  mountain_id : string;
  mountain_name : string;
  lift_count : nat;
  features : list lift
}.

(** The first loop: the dict [nodes], a later node replacing an earlier
    one of the same id. *)
Definition node_positions (elements : list element) : gmap Z (float * float) :=
  fold_left
    (fun nodes elem =>
       match elem with
       | node_element i lat lon => <[i := (lat, lon)]> nodes
       | _ => nodes
       end)
    elements ∅.

(** [coords] of a way: the positions [[lon, lat]] of its known nodes. *)
Definition way_coords (nodes : gmap Z (float * float)) (refs : list Z) : list (list float) :=
  omap (fun node_id => (fun p : float * float => [p.2; p.1]) <$> nodes !! node_id) refs.

(** The body of the second loop: the feature appended for an element, if
    any. *)
Definition feature_of (nodes : gmap Z (float * float)) (elem : element) : option lift :=
  match elem with
  | way_element i tags refs =>
      let tags := default ∅ tags in
      let aerialway_type := default "" (tags !! "aerialway") in
      if bool_decide (aerialway_type ∈ SKIP_TYPES) || String.eqb aerialway_type ""
      then None
      else
        match way_coords nodes (default [] refs) with
        | [] => None
        | coords =>
            Some (Lift coords
                    (pretty i)
                    aerialway_type
                    (default ("Lift " ++ pretty i) (tags !! "name"))
                    (tags !! "aerialway:occupancy")
                    (tags !! "aerialway:capacity")
                    (tags !! "aerialway:duration")
                    (tags !! "aerialway:heating")
                    (tags !! "aerialway:bubble"))
        end
  | _ => None
  end.

(** [overpass_to_geojson]; [overpass_data] is the value under
    ["elements"], if the key is there. *)
Definition overpass_to_geojson (mountain_id mountain_name : string)
    (overpass_data : option (list element)) : collection :=
  let elements := default [] overpass_data in
  let nodes := node_positions elements in
  let features := omap (feature_of nodes) elements in
  Collection mountain_id mountain_name (length features) features.

End FetchLiftGeojson.

(** * Properties *)

(** ** Vocabulary of the statements *)

Local Open Scope string_scope.

(** The lift types that have an entry in the colour table. *)
Definition known_types : list string := map fst color_table.

Definition is_hex_digit (a : ascii) : bool :=
  let n := nat_of_ascii a in
  ((48 <=? n) && (n <=? 57) || (65 <=? n) && (n <=? 70)
   || (97 <=? n) && (n <=? 102))%nat.

(** A colour in the notation the imaging library reads: [#] and six
    hexadecimal digits. *)
Definition is_color (s : string) : bool :=
  match s with
  | String "#" digits =>
      (String.length digits =? 6)%nat && forallb is_hex_digit (String.list_ascii_of_string digits)
  | _ => false
  end.

Local Close Scope string_scope.

(** The lines that reach the canvas: none when the computation raises. *)
Definition lines_drawn (r : result (list line)) : list line :=
  match r with
  | OK ls => ls
  | Raise _ => []
  end.


(** What a float that is not finite can be. *)
Inductive not_a_number (f : float) : Prop :=
| IsNaN : Prim2SF f = S754_nan -> not_a_number f
| IsInfinity (s : bool) : Prim2SF f = S754_infinity s -> not_a_number f.


(** The geodetic rectangle between a tile's north-west and south-east
    corners contains the point. *)
Definition rectangle_contains (nw se : float * float) (lon lat : float) : bool :=
  PrimFloat.leb (fst nw) lon && PrimFloat.leb lon (fst se)
  && PrimFloat.leb (snd se) lat && PrimFloat.leb lat (snd nw).

(** Point to tile, tile to rectangle, rectangle against the point. *)
Definition round_trip (L : libm) (lon lat : float) (zoom : Z) : result bool :=
  let! '(x, y) := lon_lat_to_tile L lon lat zoom in
  let! nw := tile_to_lon_lat L x y zoom in
  let! se := tile_to_lon_lat L (x + 1) (y + 1) zoom in
  OK (rectangle_contains nw se lon lat).


(** The tile indices a range makes the loops visit. *)
Definition tile_xs (r : tile_range) : list Z := range (min_tile_x r) (max_tile_x r + 1).
Definition tile_ys (r : tile_range) : list Z := range (min_tile_y r) (max_tile_y r + 1).

(** The tile range as the design document words it: the minima from the
    north-west corner of the box, the maxima from its south-east corner. *)
Definition plan_tile_range_spec (L : libm) (b : bbox) (zoom : Z) : result tile_range :=
  let! '(lo_x, lo_y) := lon_lat_to_tile L (min_lon b) (max_lat b) zoom in
  let! '(hi_x, hi_y) := lon_lat_to_tile L (max_lon b) (min_lat b) zoom in
  OK (TileRange lo_x hi_x lo_y hi_y).

(** ** Vocabulary for the bounding box, the rasterizer and the run *)

(** No longitude and no latitude of the collection is NaN (items beyond
    the second one are ignored, as the script ignores them). *)
Definition no_nan (cs : list (list float)) : Prop :=
  Forall (fun c => Forall (fun v => PrimFloat.is_nan v = false) (firstn 2 c)) cs.

(** The point lies inside the box, sides included. *)
Definition box_contains (b : bbox) (lon lat : float) : bool :=
  PrimFloat.leb (min_lon b) lon && PrimFloat.leb lon (max_lon b)
  && PrimFloat.leb (min_lat b) lat && PrimFloat.leb lat (max_lat b).

(** Minus infinity and NaN cannot be replaced as the running minimum,
    plus infinity and NaN cannot be replaced as the running maximum. *)
Definition lowest (f : float) : Prop :=
  Prim2SF f = S754_nan \/ Prim2SF f = S754_infinity true.

Definition highest (f : float) : Prop :=
  Prim2SF f = S754_nan \/ Prim2SF f = S754_infinity false.

(** A position with an infinite longitude. *)
Definition infinite_longitude (c : list float) : bool :=
  match c with
  | lon :: _ => PrimFloat.is_infinity lon
  | [] => false
  end.

(** The longitudes from which no box with finite sides can come: the
    first one is NaN ([min] and [max] then return NaN), or one of them is
    an infinity. *)
Definition degenerate_longitudes (cs : list (list float)) : bool :=
  match cs with
  | (lon :: _) :: _ => PrimFloat.is_nan lon
  | _ => false
  end
  || existsb infinite_longitude cs.

(** The positions of a feature that pass the test "near this tile". *)
Definition near_positions (nw se : float * float) (coords : list (list float))
  : list (list float) :=
  List.filter
    (fun c => match c with
              | [lon; lat] => near_tile nw se lon lat
              | _ => false
              end)
    coords.

(** A line as the rasterizer draws them at a zoom level: at least two
    pixels, the width of the level, a colour the imaging library reads. *)
Definition well_drawn (zoom : Z) (l : line) : Prop :=
  (2 <= length (line_pixels l))%nat
  /\ line_width l = get_lift_width zoom
  /\ is_color (line_fill l) = true.

(** The tiles a trace saves, as (zoom, column, row), in order. *)
Definition saved_tiles (t : list event) : list (Z * Z * Z) :=
  flat_map (fun e => match e with
                     | SaveTile _ zoom tile_x tile_y _ => [(zoom, tile_x, tile_y)]
                     | _ => []
                     end) t.

(** The tile counts a trace prints, in order. *)
Definition reported_counts (t : list event) : list Z :=
  flat_map (fun e => match e with
                     | Stdout (MsgGenerated tile_count) => [tile_count]
                     | _ => []
                     end) t.

(** The tiles of one zoom level, column by column; none when the tile
    range cannot be computed. *)
Definition planned_tiles (L : libm) (b : bbox) (zoom : Z) : list (Z * Z * Z) :=
  match plan_tile_range L b zoom with
  | OK r => flat_map (fun x => map (fun y => (zoom, x, y)) (tile_ys r)) (tile_xs r)
  | Raise _ => []
  end.

(** The tiles of a whole run, zoom level by zoom level. *)
Definition planned_run (L : libm) (g : geojson) (zoom_min zoom_max : Z)
  : list (Z * Z * Z) :=
  match bounding_box g with
  | OK b => flat_map (planned_tiles L b) (range zoom_min (zoom_max + 1))
  | Raise _ => []
  end.

(** A saved tile belongs to the run: it carries the mountain of the run,
    its zoom level is one of the requested ones, its indices lie in the
    tile range of that level, and the image is the rendering of the tile. *)
Definition tile_of_run (L : libm) (g : geojson) (mountain_id : string)
    (zoom_min zoom_max tile_size : Z) (e : event) : Prop :=
  match e with
  | SaveTile id zoom tile_x tile_y img =>
      id = mountain_id
      /\ (zoom_min <= zoom <= zoom_max)%Z
      /\ (exists b r, bounding_box g = OK b
                      /\ plan_tile_range L b zoom = OK r
                      /\ (min_tile_x r <= tile_x <= max_tile_x r)%Z
                      /\ (min_tile_y r <= tile_y <= max_tile_y r)%Z)
      /\ render_tile L g zoom tile_x tile_y tile_size = OK img
  | _ => True
  end.

(** What the file system must hold before an event can happen: a
    directory made without [parents=True] needs its parent, a tile file
    needs its column directory. *)
Definition requires (e : event) : list event :=
  match e with
  | MkZoomDir id zoom => [MkOutputDir id]
  | MkXDir id zoom tile_x => [MkZoomDir id zoom]
  | SaveTile id zoom tile_x _ _ => [MkXDir id zoom tile_x]
  | _ => []
  end.

(** Every event of [t] finds what it requires among the events before it
    ([before] holds the earlier events, latest first). *)
Fixpoint parents_exist (before t : list event) : Prop :=
  match t with
  | [] => True
  | e :: t' => Forall (fun d => In d before) (requires e) /\ parents_exist (e :: before) t'
  end.

(** [lon_lat_to_pixel] over the reals, beside the transforms of
    [Exact]. *)
Module ExactRaster.

Import Reals.
Local Open Scope R_scope.

Definition lon_lat_to_pixel (lon lat : R) (zoom tile_x tile_y tile_size : Z) : Z * Z :=
  let '(tile_lon, tile_lat) := Exact.tile_to_lon_lat tile_x tile_y zoom in
  let '(tile_lon_next, tile_lat_next) :=
    Exact.tile_to_lon_lat (tile_x + 1) (tile_y + 1) zoom in
  let lon_range := tile_lon_next - tile_lon in
  let lat_range := tile_lat_next - tile_lat in
  let px := Exact.to_int ((lon - tile_lon) / lon_range * IZR tile_size) in
  let py := Exact.to_int ((lat - tile_lat) / lat_range * IZR tile_size) in
  (px, py).

End ExactRaster.

(** Two inputs the script does not expect: positions that carry an
    elevation, as GeoJSON allows, and a line that starts at an infinite
    longitude. *)
Module Unusual.

Local Open Scope float_scope.

Definition with_elevation : geojson :=
  GeoJSON [Feature [Examples.chair_top ++ [0x1.4fp+10]; Examples.chair_bottom ++ [0x1.2cp+10]] ∅].

Definition unbounded : geojson :=
  GeoJSON [Feature [[infinity; Examples.chair_lat]; Examples.chair_bottom] ∅].

End Unusual.

(** ** Vocabulary for the two scripts *)

(** The lift filed for a way [pw.2] that follows the way [pw.1] in the
    file: it is built from the references and tags of [pw.2] under the id
    of [pw.1]. *)
Definition file_lift (node_table : gmap string (float * float))
    (d : list (string * list ParseSkiLifts.lift))
    (pw : ParseSkiLifts.way_element * ParseSkiLifts.way_element)
  : list (string * list ParseSkiLifts.lift) :=
  match ParseSkiLifts.lift_of node_table (ParseSkiLifts.way_id pw.1)
          (ParseSkiLifts.way_refs pw.2)
          (ParseSkiLifts.tag_table (ParseSkiLifts.way_tags pw.2)) with
  | Some (mountain_id, f) => ParseSkiLifts.append_lift mountain_id f d
  | None => d
  end.

(** The pairs of consecutive elements of a list. *)
Definition neighbours {A : Type} (l : list A) : list (A * A) :=
  match l with
  | [] => []
  | _ :: l' => zip l l'
  end.

(** The local variables between two ways: the id of the last way, and
    empty lists of references and tags. *)
Definition between_ways (s : ParseSkiLifts.state) (prev : string) : Prop :=
  ParseSkiLifts.current_way s = Some prev
  /\ ParseSkiLifts.current_way_nodes s = []
  /\ ParseSkiLifts.current_way_tags s = ∅.

(** The returned dict is in order: no mountain twice, no mountain with
    an empty list, every lift filed under its mountain. *)
Definition well_filed (d : list (string * list ParseSkiLifts.lift)) : Prop :=
  NoDup (map fst d)
  /\ Forall (fun kfs => kfs.2 <> [] /\ Forall (ParseSkiLifts.filed_under kfs.1) kfs.2) d.

(** The number of lifts in the returned dict. *)
Definition filed_count (d : list (string * list ParseSkiLifts.lift)) : nat :=
  length (concat (map snd d)).

(** A small OSM file: two nodes near Crystal Mountain, a gondola between
    them and a chair lift that also refers to an unknown node. *)
Module SmallFile.

Local Open Scope string_scope.

Definition node_elements : list (string * float * float) :=
  [("1", Examples.chair_lat, Examples.chair_lon);
   ("2", 0x1.7770a3d70a3d7p+5, -0x1.e5e147ae147aep+6)%float].

Definition gondola : ParseSkiLifts.way_element :=
  ParseSkiLifts.Way "100" ["1"; "2"] [("aerialway", "gondola"); ("name", "First")].

Definition chair : ParseSkiLifts.way_element :=
  ParseSkiLifts.Way "200" ["2"; "1"; "9"] [("aerialway", "chair_lift")].

(** The same lift as an Overpass answer, ways first. *)
Definition ways : list FetchLiftGeojson.element :=
  [FetchLiftGeojson.way_element 7 (Some {[ "aerialway" := "chair_lift" ]}) (Some [1; 5; 2]%Z);
   FetchLiftGeojson.way_element 8 (Some {[ "aerialway" := "pylon" ]}) (Some [1]%Z)].

Definition nodes : list FetchLiftGeojson.element :=
  [FetchLiftGeojson.node_element 1 Examples.chair_lat Examples.chair_lon;
   FetchLiftGeojson.node_element 2 0x1.7770a3d70a3d7p+5 (-0x1.e5e147ae147aep+6)%float].

End SmallFile.

Definition is_node (e : FetchLiftGeojson.element) : bool :=
  match e with
  | FetchLiftGeojson.node_element _ _ _ => true
  | _ => false
  end.

(** A feature the conversion may return for the elements: it stems from
    a way of the answer that has a type worth drawing, carries that way's
    id and type, and its positions are the positions of the way's known
    nodes, longitude first. *)
Definition stems_from (elements : list FetchLiftGeojson.element)
    (f : FetchLiftGeojson.lift) : Prop :=
  exists i tags refs,
    In (FetchLiftGeojson.way_element i tags refs) elements
    /\ FetchLiftGeojson.id f = pretty i
    /\ default ∅ tags !! "aerialway"%string = Some (FetchLiftGeojson.type f)
    /\ (FetchLiftGeojson.type f ∉ FetchLiftGeojson.SKIP_TYPES)
    /\ FetchLiftGeojson.type f <> ""%string
    /\ FetchLiftGeojson.coordinates f
       = FetchLiftGeojson.way_coords (FetchLiftGeojson.node_positions elements)
           (default [] refs)
    /\ FetchLiftGeojson.coordinates f <> []
    /\ Forall (fun c => length c = 2%nat) (FetchLiftGeojson.coordinates f).

(** ** Style resolver *)

Section Style.

Local Open Scope string_scope.

Lemma colors_lookup_Some (t c : string) :
  colors !! t = Some c -> In (t, c) color_table.
Proof.
  intros H. apply list_elem_of_In. now apply elem_of_list_to_map_2.
Qed.

Lemma colors_lookup_None (t : string) :
  colors !! t = None <-> ~ In t known_types.
Proof.
  unfold colors, known_types. rewrite <- list_elem_of_In.
  symmetry. apply not_elem_of_list_to_map.
Qed.

Lemma color_table_valid (t c : string) :
  In (t, c) color_table -> is_color c = true /\ c <> "#888888".
Proof.
  unfold color_table. intros H.
  repeat (destruct H as [H | H]; [ inversion H; subst; split; [ reflexivity | discriminate ] | ]).
  destruct H.
Qed.

Lemma get_lift_color_gray (t : string) :
  get_lift_color t = "#888888" -> ~ In t known_types.
Proof.
  unfold get_lift_color. intros H. apply colors_lookup_None.
  destruct (colors !! t) as [c | ] eqn:E; [ | reflexivity ].
  apply colors_lookup_Some, color_table_valid in E. simpl in H. tauto.
Qed.

(** C4. [get_lift_color] is defined on every string (the empty one and
    unknown types included) and returns a colour; for a type without an
    entry in the table the colour is the gray ["#888888"]. *)
Theorem get_lift_color_total (lift_type : string) :
  is_color (get_lift_color lift_type) = true
  /\ (~ In lift_type known_types -> get_lift_color lift_type = "#888888").
Proof.
  unfold get_lift_color. split.
  - destruct (colors !! lift_type) as [c | ] eqn:E; [ | reflexivity ].
    now apply colors_lookup_Some, color_table_valid in E.
  - intros H. apply colors_lookup_None in H. now rewrite H.
Qed.

Lemma get_lift_color_total_witness :
  is_color (get_lift_color "") = true /\ get_lift_color "" = "#888888".
Proof.
  destruct (get_lift_color_total "") as [H1 H2]. split; [ exact H1 | ].
  apply H2. unfold known_types. simpl. intuition discriminate.
Defined.

Lemma lift_type_of_missing (f : feature) :
  properties f !! "type" = None -> lift_type_of f = "chair_lift".
Proof. unfold lift_type_of. now intros ->. Qed.

Lemma lift_type_of_gray (f : feature) :
  get_lift_color (lift_type_of f) = "#888888" ->
  exists t, properties f !! "type" = Some t /\ ~ In t known_types.
Proof.
  unfold lift_type_of. destruct (properties f !! "type") as [t | ]; simpl.
  - intros H. exists t. split; [ reflexivity | now apply get_lift_color_gray ].
  - discriminate.
Qed.

End Style.

(** ** Results *)

Section Results.

Context {A B : Type}.

Lemma bind_OK_inv (r : result A) (k : A -> result B) (b : B) :
  Py.bind r k = OK b -> exists a, r = OK a /\ k a = OK b.
Proof. destruct r as [a | e]; [ now exists a | discriminate ]. Qed.


End Results.

(** Splits a successful sequence of steps into its steps. *)
Ltac bind_inv H :=
  let a := fresh "a" in
  let E := fresh "E" in
  apply bind_OK_inv in H; destruct H as (a & E & H).

(** ** Facts about binary64 comparisons *)

Section FloatFacts.

Lemma SFcompare_refl (x : spec_float) :
  x <> S754_nan -> SFcompare x x = Some Eq.
Proof.
  destruct x as [s | s | | s m e]; intros H; try congruence.
  - reflexivity.
  - now destruct s.
  - pose proof (Z.compare_refl e) as E1. pose proof (Pos.compare_refl m) as E2.
    unfold SFcompare.
    change (IntDef.Z.compare e e) with (Z.compare e e).
    change (PosDef.Pos.compare_cont Eq m m) with (Pos.compare m m).
    rewrite E1, E2. now destruct s.
Qed.

Lemma is_nan_Prim2SF (f : float) : is_nan f = true -> Prim2SF f = S754_nan.
Proof.
  unfold is_nan. rewrite FloatAxioms.eqb_spec. unfold SFeqb. intros H.
  destruct (Prim2SF f) as [s | s | | s m e] eqn:E; [ | | reflexivity | ];
    rewrite SFcompare_refl in H by discriminate; discriminate.
Qed.

Lemma is_infinity_Prim2SF (f : float) :
  is_infinity f = true -> exists s, Prim2SF f = S754_infinity s.
Proof.
  unfold is_infinity. rewrite FloatAxioms.eqb_spec, abs_spec.
  change (Prim2SF infinity) with (S754_infinity false).
  destruct (Prim2SF f) as [s | s | | s m e]; try discriminate.
  intros _. now exists s.
Qed.

Lemma not_finite_cases (f : float) : is_finite f = false -> not_a_number f.
Proof.
  unfold is_finite. intros H. apply negb_false_iff, orb_true_iff in H.
  destruct H as [H | H].
  - now apply IsNaN, is_nan_Prim2SF.
  - destruct (is_infinity_Prim2SF f H) as [s Hs]. now apply (IsInfinity f s).
Qed.


Lemma leb_nan_r (a b : float) : Prim2SF b = S754_nan -> PrimFloat.leb a b = false.
Proof. intros H. rewrite leb_spec, H. unfold SFleb. now destruct (Prim2SF a). Qed.





(** For a NaN coordinate the bounds do not matter: no comparison with NaN
    holds. *)
Lemma near_tile_nan (nw se : float * float) (lon lat : float) :
  is_nan lon || is_nan lat = true -> near_tile nw se lon lat = false.
Proof.
  destruct nw as [lon_nw lat_nw], se as [lon_se lat_se]. unfold near_tile.
  intros H. apply orb_true_iff in H. destruct H as [H | H]; apply is_nan_Prim2SF in H.
  - now rewrite (leb_nan_r _ lon H).
  - rewrite (leb_nan_r _ lat H). apply andb_false_r.
Qed.

End FloatFacts.

(** ** The numeric layer on concrete values *)

Section Checks.

Local Open Scope float_scope.

(** [int] truncates toward zero and rejects NaN and the infinities. *)
Example to_int_values :
  PyFloat.to_int (-2.5) = OK (-2)%Z
  /\ PyFloat.to_int 2.5 = OK 2%Z
  /\ PyFloat.to_int (-0.5) = OK 0%Z
  /\ PyFloat.to_int nan = Raise ValueError
  /\ PyFloat.to_int infinity = Raise OverflowError.
Proof. vm_compute. repeat split. Qed.

(** Integers beyond 2^53 are rounded to even; beyond the range they are
    refused. *)
Example of_int_values :
  PyFloat.of_int (2 ^ 53 + 1) = OK 0x1p+53
  /\ PyFloat.of_int (2 ^ 53 + 3) = OK 0x1.0000000000002p+53
  /\ PyFloat.of_int (2 ^ 1024) = Raise OverflowError.
Proof. vm_compute. repeat split. Qed.

Example pow2_values :
  PyFloat.pow2 10 = OK 1024
  /\ PyFloat.pow2 (-1) = OK 0.5
  /\ PyFloat.pow2 1024 = Raise OverflowError
  /\ PyFloat.pow2 (-1075) = OK 0
  /\ PyFloat.pow2 (- 2 ^ 1100) = Raise OverflowError.
Proof. vm_compute. repeat split. Qed.

(** Away from tile edges the round trip is as expected: the rectangle of
    the tile of the lift's upper end contains that point. *)
Example round_trip_chair_top :
  round_trip SoftLibm.soft Examples.chair_lon Examples.chair_lat 12 = OK true.
Proof. vm_compute. reflexivity. Qed.

(** Rounding at the antimeridian: the float just below 180 becomes 360
    when 180 is added, so its column at zoom 10 is [2^10], as for 180. *)
Example below_antimeridian_column :
  tile_x_of 0x1.67fffffffffffp+7 1024 = OK 1024%Z
  /\ tile_x_of 180 1024 = OK 1024%Z.
Proof. vm_compute. repeat split. Qed.

(** The generation run of the design document's example: one chair lift,
    zoom 12 only.  One tile is written, with one blue line of width 2. *)
Example crystal_run :
  generate_tiles SoftLibm.soft (Some Examples.crystal) "crystal" 12 12 256
  = ([Stdout (MsgLoaded 1 "crystal");
      MkOutputDir "crystal";
      Stdout (MsgBounds Examples.crystal_box);
      Stdout (MsgZoom 12);
      Stdout (MsgTilesX 665 665);
      Stdout (MsgTilesY 1441 1441);
      MkZoomDir "crystal" 12;
      MkXDir "crystal" 12 665;
      SaveTile "crystal" 12 665 1441
        (Image 256 [Line [(229, 193); (240, 214)]%Z "#0066FF" 2]);
      Stdout (MsgGenerated 1);
      Stdout (MsgDone "crystal")],
     OK tt).
Proof. vm_compute. reflexivity. Qed.

(** A missing file is reported and nothing else happens. *)
Example missing_file_run :
  generate_tiles SoftLibm.soft None "crystal" 10 16 256
  = ([Stdout (MsgNotFound "crystal")], OK tt).
Proof. reflexivity. Qed.

(** An infinite coordinate enters the bounding box and stops the run when
    the tile range of the first zoom level is computed; a NaN that is not
    the first position is ignored by [min] and [max]. *)
Example infinite_coordinate_run :
  IO.outcome
    (generate_tiles SoftLibm.soft
       (Some (GeoJSON [Feature [[infinity; 0]; [0; 0]] ∅])) "crystal" 10 10 256)
  = Raise OverflowError.
Proof. vm_compute. reflexivity. Qed.

Example nan_coordinate_box :
  bounding_box (GeoJSON [Feature [[0; 0]; [nan; nan]; [1; 1]] ∅]) = OK (BBox 0 0 1 1).
Proof. vm_compute. reflexivity. Qed.

End Checks.

(** ** Rasterizer *)

Section Rasterizer.

Variable L : libm.
Variables zoom tile_x tile_y tile_size : Z.
Variables nw se : float * float.

(** The rasterizer's loops at the tile under consideration. *)
Local Abbreviation pixels_here := (feature_pixels L zoom tile_x tile_y tile_size nw se).
Local Abbreviation draw_here := (draw_feature L zoom tile_x tile_y tile_size nw se).
Local Abbreviation draw_all_here := (draw_features L zoom tile_x tile_y tile_size nw se).

Lemma feature_pixels_length (coords : list (list float)) (pixels : list (Z * Z)) :
  pixels_here coords = OK pixels -> (length pixels <= length coords)%nat.
Proof.
  revert pixels. induction coords as [ | c rest IH]; intros pixels H; simpl in H.
  - injection H as <-. reflexivity.
  - bind_inv H. destruct a as [lon lat]. bind_inv H. bind_inv H.
    injection H as <-. apply IH in E1. rewrite length_app. simpl.
    assert (length a <= 1)%nat; [ | lia ].
    destruct (near_tile nw se lon lat).
    + bind_inv E0. injection E0 as <-. simpl. lia.
    + injection E0 as <-. simpl. lia.
Qed.

Lemma draw_feature_few_pixels (f : feature) (pixels : list (Z * Z)) :
  pixels_here (coordinates f) = OK pixels -> (length pixels < 2)%nat ->
  draw_here f = OK [].
Proof.
  intros H Hlen. unfold draw_feature. rewrite H. cbn [Py.bind].
  destruct (Nat.leb_spec 2 (length pixels)); [ lia | reflexivity ].
Qed.

(** C6. A feature of which fewer than two positions pass the inclusion
    test and the projection adds no line to the tile; in particular a
    feature with exactly one position draws no line, whatever the tile. *)
Theorem no_line_below_two_pixels (f : feature) :
  (forall pixels, pixels_here (coordinates f) = OK pixels ->
                  (length pixels < 2)%nat -> lines_drawn (draw_here f) = [])
  /\ (length (coordinates f) = 1%nat -> lines_drawn (draw_here f) = []).
Proof.
  split.
  - intros pixels H Hlen. now rewrite (draw_feature_few_pixels f pixels H Hlen).
  - intros Hone. destruct (pixels_here (coordinates f)) as [pixels | e] eqn:E.
    + rewrite (draw_feature_few_pixels f pixels E); [ reflexivity | ].
      apply feature_pixels_length in E. lia.
    + unfold draw_feature. now rewrite E.
Qed.

Lemma draw_feature_fill (f : feature) (ls : list line) (l : line) :
  draw_here f = OK ls -> In l ls ->
  line_fill l = get_lift_color (lift_type_of f).
Proof.
  unfold draw_feature. intros H Hin. bind_inv H.
  destruct (2 <=? length a)%nat; injection H as <-.
  - destruct Hin as [<- | []]. reflexivity.
  - destruct Hin.
Qed.

(** C10. A feature without a [type] property is drawn in the chair-lift
    colour ["#0066FF"]; a line is drawn in the gray ["#888888"] only for
    a feature whose [type] is present and has no entry in the table. *)
Theorem untyped_feature_is_chair_lift (f : feature) (ls : list line) (l : line) :
  draw_here f = OK ls -> In l ls ->
  (properties f !! "type"%string = None -> line_fill l = "#0066FF"%string)
  /\ (line_fill l = "#888888"%string ->
      exists t, properties f !! "type"%string = Some t /\ ~ In t known_types).
Proof.
  intros H Hin. rewrite (draw_feature_fill f ls l H Hin). split.
  - intros Hnone. now rewrite (lift_type_of_missing f Hnone).
  - apply lift_type_of_gray.
Qed.



End Rasterizer.

Lemma no_line_below_two_pixels_witness :
  lines_drawn (draw_feature SoftLibm.soft 12 665 1441 256
                 Examples.crystal_nw Examples.crystal_se Examples.single_point) = [].
Proof.
  apply (no_line_below_two_pixels SoftLibm.soft 12 665 1441 256
           Examples.crystal_nw Examples.crystal_se Examples.single_point).
  reflexivity.
Defined.

Lemma untyped_feature_is_chair_lift_witness :
  exists l,
    lines_drawn (draw_feature SoftLibm.soft 12 665 1441 256
                   Examples.crystal_nw Examples.crystal_se Examples.untyped_lift) = [l]
    /\ line_fill l = "#0066FF"%string.
Proof.
  eexists. split; [ vm_compute; reflexivity | ].
  eapply (untyped_feature_is_chair_lift SoftLibm.soft 12 665 1441 256
            Examples.crystal_nw Examples.crystal_se Examples.untyped_lift).
  - vm_compute. reflexivity.
  - left. reflexivity.
  - reflexivity.
Defined.



(** ** Coordinate transforms *)

Section TransformFacts.

Variable L : libm.

Lemma of_int_no_zero_division (i : Z) : PyFloat.of_int i <> Raise ZeroDivisionError.
Proof. unfold PyFloat.of_int. destruct (binary_normalize _ _ _ _ _); discriminate. Qed.

Lemma to_int_no_zero_division (f : float) : PyFloat.to_int f <> Raise ZeroDivisionError.
Proof. unfold PyFloat.to_int. destruct (Prim2SF f); discriminate. Qed.

Lemma div_by_zero (a b : float) :
  PrimFloat.eqb b 0 = true -> PyFloat.div a b = Raise ZeroDivisionError.
Proof. unfold PyFloat.div. now intros ->. Qed.

Lemma div_by_nonzero (a b : float) :
  PrimFloat.eqb b 0 = false -> PyFloat.div a b = OK (a / b)%float.
Proof. unfold PyFloat.div. now intros ->. Qed.

Lemma pixel_of_zero_span (v v0 range : float) (tile_size : Z) :
  PrimFloat.eqb range 0 = true ->
  pixel_of v v0 range tile_size = Raise ZeroDivisionError.
Proof. intros H. unfold pixel_of. now rewrite div_by_zero. Qed.

Lemma pixel_of_nonzero_span (v v0 range : float) (tile_size : Z) :
  PrimFloat.eqb range 0 = false ->
  pixel_of v v0 range tile_size <> Raise ZeroDivisionError.
Proof.
  intros H. unfold pixel_of. rewrite div_by_nonzero by exact H. cbn [Py.bind].
  destruct (PyFloat.of_int tile_size) as [ts | e] eqn:E; cbn [Py.bind].
  - apply to_int_no_zero_division.
  - intros Hc. injection Hc as ->. exact (of_int_no_zero_division _ E).
Qed.

(** C7, as the code has it. [lon_lat_to_pixel] divides by the tile's
    spans without a guard: a zero longitude span makes it raise
    [ZeroDivisionError], a zero latitude span makes it raise as well, and
    with two non-zero spans it never raises [ZeroDivisionError]. *)
Theorem lon_lat_to_pixel_unguarded (lon lat : float) (zoom tile_x tile_y tile_size : Z)
    (nw se : float * float) :
  tile_to_lon_lat L tile_x tile_y zoom = OK nw ->
  tile_to_lon_lat L (tile_x + 1) (tile_y + 1) zoom = OK se ->
  let lon_range := (fst se - fst nw)%float in
  let lat_range := (snd se - snd nw)%float in
  let pixel := lon_lat_to_pixel L lon lat zoom tile_x tile_y tile_size in
  (PrimFloat.eqb lon_range 0 = true -> pixel = Raise ZeroDivisionError)
  /\ (PrimFloat.eqb lat_range 0 = true -> Py.succeeds pixel = false)
  /\ (PrimFloat.eqb lon_range 0 = false -> PrimFloat.eqb lat_range 0 = false ->
      pixel <> Raise ZeroDivisionError).
Proof.
  intros Hnw Hse. destruct nw as [tile_lon tile_lat], se as [tile_lon_next tile_lat_next].
  cbn zeta. unfold lon_lat_to_pixel. rewrite Hnw, Hse. cbn [Py.bind fst snd].
  repeat split.
  - intros H. now rewrite pixel_of_zero_span.
  - intros H. destruct (pixel_of lon _ _ _); cbn [Py.bind]; [ | reflexivity ].
    now rewrite pixel_of_zero_span.
  - intros Hx Hy.
    pose proof (pixel_of_nonzero_span lon tile_lon _ tile_size Hx) as Px.
    pose proof (pixel_of_nonzero_span lat tile_lat _ tile_size Hy) as Py.
    destruct (pixel_of lon _ _ _) as [px | e]; cbn [Py.bind]; [ | congruence ].
    destruct (pixel_of lat _ _ _) as [py | e]; cbn [Py.bind]; congruence.
Qed.

Lemma lon_lat_to_tile_OK (lon lat : float) (zoom x y : Z) :
  lon_lat_to_tile L lon lat zoom = OK (x, y) <->
  exists n, PyFloat.pow2 zoom = OK n
            /\ tile_x_of lon n = OK x
            /\ tile_y_of L (PyFloat.radians lat) n = OK y.
Proof.
  unfold lon_lat_to_tile. split.
  - intros H. bind_inv H. bind_inv H. bind_inv H. injection H as <- <-.
    now exists a.
  - intros (n & Hn & Hx & Hy).
    rewrite Hn. cbn [Py.bind]. rewrite Hx. cbn [Py.bind]. now rewrite Hy.
Qed.

Lemma plan_tile_range_OK (b : bbox) (zoom : Z) (r : tile_range) :
  plan_tile_range L b zoom = OK r <->
  exists n, PyFloat.pow2 zoom = OK n
            /\ tile_x_of (min_lon b) n = OK (min_tile_x r)
            /\ tile_x_of (max_lon b) n = OK (max_tile_x r)
            /\ tile_y_of L (PyFloat.radians (max_lat b)) n = OK (min_tile_y r)
            /\ tile_y_of L (PyFloat.radians (min_lat b)) n = OK (max_tile_y r).
Proof.
  unfold plan_tile_range. split.
  - intros H. bind_inv H. destruct a as [lo_x hi_y]. bind_inv H.
    destruct a as [hi_x lo_y]. injection H as <-.
    apply lon_lat_to_tile_OK in E as (n & Hn & Hx & Hy).
    apply lon_lat_to_tile_OK in E0 as (n' & Hn' & Hx' & Hy').
    assert (n' = n) as -> by congruence. now exists n.
  - intros (n & Hn & H1 & H2 & H3 & H4). destruct r as [lo_x hi_x lo_y hi_y].
    cbn in H1, H2, H3, H4.
    assert (E1 : lon_lat_to_tile L (min_lon b) (min_lat b) zoom = OK (lo_x, hi_y))
      by (apply lon_lat_to_tile_OK; now exists n).
    assert (E2 : lon_lat_to_tile L (max_lon b) (max_lat b) zoom = OK (hi_x, lo_y))
      by (apply lon_lat_to_tile_OK; now exists n).
    now rewrite E1, E2.
Qed.

Lemma plan_tile_range_spec_OK (b : bbox) (zoom : Z) (r : tile_range) :
  plan_tile_range_spec L b zoom = OK r <->
  exists n, PyFloat.pow2 zoom = OK n
            /\ tile_x_of (min_lon b) n = OK (min_tile_x r)
            /\ tile_x_of (max_lon b) n = OK (max_tile_x r)
            /\ tile_y_of L (PyFloat.radians (max_lat b)) n = OK (min_tile_y r)
            /\ tile_y_of L (PyFloat.radians (min_lat b)) n = OK (max_tile_y r).
Proof.
  unfold plan_tile_range_spec. split.
  - intros H. bind_inv H. destruct a as [lo_x lo_y]. bind_inv H.
    destruct a as [hi_x hi_y]. injection H as <-.
    apply lon_lat_to_tile_OK in E as (n & Hn & Hx & Hy).
    apply lon_lat_to_tile_OK in E0 as (n' & Hn' & Hx' & Hy').
    assert (n' = n) as -> by congruence. now exists n.
  - intros (n & Hn & H1 & H2 & H3 & H4). destruct r as [lo_x hi_x lo_y hi_y].
    cbn in H1, H2, H3, H4.
    assert (E1 : lon_lat_to_tile L (min_lon b) (max_lat b) zoom = OK (lo_x, lo_y))
      by (apply lon_lat_to_tile_OK; now exists n).
    assert (E2 : lon_lat_to_tile L (max_lon b) (min_lat b) zoom = OK (hi_x, hi_y))
      by (apply lon_lat_to_tile_OK; now exists n).
    now rewrite E1, E2.
Qed.

(** C8. The tile range the code computes is the one the design document
    describes: [min_tile_x] and [min_tile_y] are the tile of the box's
    north-west corner, [max_tile_x] and [max_tile_y] the tile of its
    south-east corner; the largest latitude gives the smallest tile row
    and the smallest latitude the largest. *)
Theorem tile_range_from_corners (b : bbox) (zoom : Z) (r : tile_range) :
  (plan_tile_range L b zoom = OK r <-> plan_tile_range_spec L b zoom = OK r)
  /\ (plan_tile_range L b zoom = OK r ->
      exists n, PyFloat.pow2 zoom = OK n
                /\ tile_x_of (min_lon b) n = OK (min_tile_x r)
                /\ tile_x_of (max_lon b) n = OK (max_tile_x r)
                /\ tile_y_of L (PyFloat.radians (max_lat b)) n = OK (min_tile_y r)
                /\ tile_y_of L (PyFloat.radians (min_lat b)) n = OK (max_tile_y r)).
Proof.
  split.
  - rewrite plan_tile_range_OK, plan_tile_range_spec_OK. reflexivity.
  - intros H. now apply plan_tile_range_OK.
Qed.

End TransformFacts.

Lemma lon_lat_to_pixel_unguarded_witness :
  lon_lat_to_pixel SoftLibm.soft Examples.chair_lon Examples.chair_lat 60 0 0 256
  = Raise ZeroDivisionError
  /\ lon_lat_to_pixel SoftLibm.soft Examples.chair_lon Examples.chair_lat 12 665 1441 256
     <> Raise ZeroDivisionError.
Proof.
  split.
  - destruct (lon_lat_to_pixel_unguarded SoftLibm.soft Examples.chair_lon Examples.chair_lat
                60 0 0 256 Examples.deep_nw Examples.deep_se) as (H & _ & _);
      [ vm_compute; reflexivity .. | ].
    apply H. vm_compute. reflexivity.
  - destruct (lon_lat_to_pixel_unguarded SoftLibm.soft Examples.chair_lon Examples.chair_lat
                12 665 1441 256 Examples.crystal_nw Examples.crystal_se) as (_ & _ & H);
      [ vm_compute; reflexivity .. | ].
    apply H; vm_compute; reflexivity.
Defined.

(** At zoom 60 the division cannot succeed, whatever the C library
    computes for the latitudes: the corners' longitudes coincide. *)
Lemma deep_zoom_always_raises (L : libm) (lon lat : float) (tile_size : Z) :
  Py.succeeds (lon_lat_to_pixel L lon lat 60 (2 ^ 59) (2 ^ 59) tile_size) = false.
Proof.
  unfold lon_lat_to_pixel, tile_to_lon_lat.
  change (PyFloat.pow2 60) with (OK 0x1p+60%float). cbn [Py.bind].
  change (tile_lon_of (2 ^ 59) 0x1p+60) with (OK 0%float).
  change (tile_lon_of (2 ^ 59 + 1) 0x1p+60) with (OK 0%float). cbn [Py.bind].
  destruct (tile_lat_of L (2 ^ 59) _) as [lat_nw | e]; cbn [Py.bind]; [ | reflexivity ].
  destruct (tile_lat_of L (2 ^ 59 + 1) _) as [lat_se | e]; cbn [Py.bind]; [ | reflexivity ].
  rewrite pixel_of_zero_span; reflexivity.
Qed.

(** C7, the counterexample: at zoom 60 the two corners of the tile that
    holds the point (0, 0) have the same binary64 longitude, and the
    division by their difference is carried out and raises. *)
Lemma lon_lat_to_pixel_divides_by_zero :
  lon_lat_to_pixel SoftLibm.soft 0 0 60 (2 ^ 59) (2 ^ 59) 256 = Raise ZeroDivisionError.
Proof. vm_compute. reflexivity. Qed.

Lemma tile_range_from_corners_witness :
  plan_tile_range_spec SoftLibm.soft Examples.crystal_box 12
  = OK (TileRange 665 665 1441 1441).
Proof.
  apply (proj1 (tile_range_from_corners SoftLibm.soft Examples.crystal_box 12 _)).
  vm_compute. reflexivity.
Defined.


(** The same failure, whatever the C library computes for the latitude. *)
Lemma round_trip_misses_point_any_libm (L : libm) :
  round_trip L Examples.below_edge 0 5 <> OK true.
Proof.
  unfold round_trip, lon_lat_to_tile, tile_to_lon_lat.
  change (PyFloat.pow2 5) with (OK 32%float). cbn [Py.bind].
  change (tile_x_of Examples.below_edge 32) with (OK 17%Z). cbn [Py.bind].
  destruct (tile_y_of L _ _) as [y | e]; cbn [Py.bind]; [ | discriminate ].
  change (tile_lon_of 17 32) with (OK 11.25%float).
  change (tile_lon_of (17 + 1) 32) with (OK 22.5%float). cbn [Py.bind].
  destruct (tile_lat_of L y 32) as [lat_nw | e]; cbn [Py.bind]; [ | discriminate ].
  destruct (tile_lat_of L (y + 1) 32) as [lat_se | e]; cbn [Py.bind]; [ | discriminate ].
  unfold rectangle_contains. cbn [fst snd].
  change (PrimFloat.leb 11.25 Examples.below_edge) with false. discriminate.
Qed.


(** The same column, whatever the C library computes for the latitude. *)
Lemma antimeridian_column_any_libm (L : libm) (r : tile_range) :
  plan_tile_range L Examples.antimeridian_box 0 = OK r ->
  min_tile_x r = 1%Z /\ max_tile_x r = 1%Z.
Proof.
  intros H. apply plan_tile_range_OK in H as (n & Hn & H1 & H2 & _).
  change (PyFloat.pow2 0) with (OK 1%float) in Hn. injection Hn as <-.
  change (tile_x_of (min_lon Examples.antimeridian_box) 1) with (OK 1%Z) in H1.
  change (tile_x_of (max_lon Examples.antimeridian_box) 1) with (OK 1%Z) in H2.
  split; congruence.
Qed.

(** ** The generation run *)

Section RunFacts.

Variable L : libm.

Lemma range_empty (lo hi : Z) : (hi <= lo)%Z -> range lo hi = [].
Proof. intros H. unfold range. apply seqZ_nil. lia. Qed.

Lemma in_range (lo hi k : Z) : In k (range lo hi) <-> (lo <= k < hi)%Z.
Proof. unfold range. rewrite <- list_elem_of_In, elem_of_seqZ. lia. Qed.

Lemma bounding_box_empty (g : geojson) :
  all_coords g = [] -> bounding_box g = Raise ValueError.
Proof. intros H. unfold bounding_box. now rewrite H. Qed.

(** C3, as the code has it. With no position in the whole collection the
    bounding box is a [min] over an empty sequence, which raises
    [ValueError]; [generate_tiles] does not catch it, so the run ends with
    that exception right after the output directory was created, before
    any zoom level is entered. *)
Theorem empty_input_raises (g : geojson) (mountain_id : string)
    (zoom_min zoom_max tile_size : Z) :
  all_coords g = [] ->
  bounding_box g = Raise ValueError
  /\ generate_tiles L (Some g) mountain_id zoom_min zoom_max tile_size
     = ([Stdout (MsgLoaded (length (features g)) mountain_id); MkOutputDir mountain_id],
        Raise ValueError).
Proof.
  intros H. pose proof (bounding_box_empty g H) as Hb. split; [ exact Hb | ].
  unfold generate_tiles. now rewrite Hb.
Qed.

(** C5, as the code has it. A zoom range with [zoom_min > zoom_max] is not
    rejected: the output directory is created, the bounding box is
    computed and printed, the loop over zoom levels runs zero times (no
    zoom directory, no tile) and the run ends normally. *)
Theorem inverted_zoom_range_runs_empty (g : geojson) (mountain_id : string)
    (zoom_min zoom_max tile_size : Z) (b : bbox) :
  (zoom_max < zoom_min)%Z ->
  bounding_box g = OK b ->
  generate_tiles L (Some g) mountain_id zoom_min zoom_max tile_size
  = ([Stdout (MsgLoaded (length (features g)) mountain_id);
      MkOutputDir mountain_id;
      Stdout (MsgBounds b);
      Stdout (MsgDone mountain_id)],
     OK tt).
Proof.
  intros Hz Hb. unfold generate_tiles.
  rewrite Hb, (range_empty zoom_min (zoom_max + 1)) by lia. reflexivity.
Qed.

End RunFacts.

Lemma empty_input_raises_witness :
  IO.outcome (generate_tiles SoftLibm.soft (Some (GeoJSON [Feature [] ∅; Feature [] ∅]))
                "crystal" 10 16 256)
  = Raise ValueError.
Proof.
  destruct (empty_input_raises SoftLibm.soft (GeoJSON [Feature [] ∅; Feature [] ∅])
              "crystal" 10 16 256) as [_ H]; [ reflexivity | ].
  now rewrite H.
Defined.

(** C3, the counterexample: the empty collection, run with the defaults
    of the command line, ends in an uncaught [ValueError]. *)
Lemma empty_collection_crashes :
  main SoftLibm.soft (Some (GeoJSON [])) "crystal" None None None
  = ([Stdout (MsgLoaded 0 "crystal"); MkOutputDir "crystal"], Raise ValueError).
Proof. vm_compute. reflexivity. Qed.

Lemma inverted_zoom_range_runs_empty_witness :
  generate_tiles SoftLibm.soft (Some Examples.crystal) "crystal" 16 10 256
  = ([Stdout (MsgLoaded 1 "crystal");
      MkOutputDir "crystal";
      Stdout (MsgBounds Examples.crystal_box);
      Stdout (MsgDone "crystal")],
     OK tt).
Proof.
  apply (inverted_zoom_range_runs_empty SoftLibm.soft Examples.crystal "crystal" 16 10 256).
  - lia.
  - vm_compute. reflexivity.
Defined.

(** C5, the counterexample: with [--zoom-min 12 --zoom-max 11] the run
    reports no error and has created the output directory. *)
Lemma inverted_zoom_range_not_rejected :
  let run := main SoftLibm.soft (Some Examples.crystal) "crystal" (Some 12%Z) (Some 11%Z) None in
  IO.outcome run = OK tt /\ In (MkOutputDir "crystal") (IO.trace run).
Proof. vm_compute. split; [ reflexivity | right; now left ]. Qed.

(** ** The transforms in exact arithmetic *)

Section ExactFacts.

Import Reals.
Local Open Scope R_scope.






(** *** Latitude and Mercator ordinate *)














(** *** Scaled coordinates *)






(** *** Tile edges *)








(** *** Rows against latitude *)









End ExactFacts.

(** ** The order of binary64 numbers

    [<=] on floats is transitive, and total away from NaN: what makes
    [min] and [max] return bounds. *)

Section FloatOrder.

Ltac std_compare :=
  change IntDef.Z.compare with Z.compare in *;
  repeat match goal with
  | |- context [PosDef.Pos.compare_cont Eq ?a ?b] =>
      change (PosDef.Pos.compare_cont Eq a b) with (Pos.compare a b)
  | H : context [PosDef.Pos.compare_cont Eq ?a ?b] |- _ =>
      change (PosDef.Pos.compare_cont Eq a b) with (Pos.compare a b) in H
  end.

Lemma SFleb_trans (x y z : spec_float) :
  SFleb x y = true -> SFleb y z = true -> SFleb x z = true.
Proof.
  unfold SFleb.
  destruct x as [[]|[]| |[] mx ex], y as [[]|[]| |[] my ey], z as [[]|[]| |[] mz ez];
    simpl; try discriminate; try reflexivity; std_compare;
    destruct (Z.compare_spec ex ey), (Z.compare_spec ey ez), (Z.compare_spec ex ez);
    try discriminate; try reflexivity; try lia;
    destruct (Pos.compare_spec mx my), (Pos.compare_spec my mz), (Pos.compare_spec mx mz);
    simpl; try discriminate; try reflexivity; try lia.
Qed.

Lemma SFcompare_total (x y : spec_float) :
  x <> S754_nan -> y <> S754_nan -> SFltb x y = false -> SFleb y x = true.
Proof.
  unfold SFltb, SFleb.
  destruct x as [[]|[]| |[] mx ex], y as [[]|[]| |[] my ey];
    simpl; try congruence; try reflexivity; intros _ _; std_compare;
    destruct (Z.compare_spec ex ey), (Z.compare_spec ey ex);
    try discriminate; try reflexivity; try lia;
    destruct (Pos.compare_spec mx my), (Pos.compare_spec my mx);
    simpl; try discriminate; try reflexivity; try lia.
Qed.

Lemma not_nan_Prim2SF (f : float) : is_nan f = false -> Prim2SF f <> S754_nan.
Proof.
  unfold is_nan. rewrite FloatAxioms.eqb_spec. intros H E. rewrite E in H. discriminate.
Qed.

Lemma leb_trans (a b c : float) :
  PrimFloat.leb a b = true -> PrimFloat.leb b c = true -> PrimFloat.leb a c = true.
Proof. rewrite !leb_spec. apply SFleb_trans. Qed.

Lemma leb_refl (a : float) : is_nan a = false -> PrimFloat.leb a a = true.
Proof.
  intros H. rewrite leb_spec. unfold SFleb.
  now rewrite SFcompare_refl by now apply not_nan_Prim2SF.
Qed.

Lemma ltb_leb (a b : float) : PrimFloat.ltb a b = true -> PrimFloat.leb a b = true.
Proof.
  rewrite ltb_spec, leb_spec. unfold SFltb, SFleb.
  now destruct (SFcompare _ _) as [[]|].
Qed.

Lemma not_ltb_leb (a b : float) :
  is_nan a = false -> is_nan b = false ->
  PrimFloat.ltb a b = false -> PrimFloat.leb b a = true.
Proof.
  intros Ha Hb. rewrite ltb_spec, leb_spec.
  apply SFcompare_total; now apply not_nan_Prim2SF.
Qed.

End FloatOrder.

(** ** The bounding box *)

Section BoundingBox.

Lemma min_from_In (cur : float) (l : list float) : In (min_from cur l) (cur :: l).
Proof.
  revert cur. induction l as [ | v l IH]; intros cur; simpl; [ now left | ].
  destruct (IH (if PrimFloat.ltb v cur then v else cur)) as [H | H].
  - destruct (PrimFloat.ltb v cur); rewrite <- H; auto.
  - auto.
Qed.

Lemma max_from_In (cur : float) (l : list float) : In (max_from cur l) (cur :: l).
Proof.
  revert cur. induction l as [ | v l IH]; intros cur; simpl; [ now left | ].
  destruct (IH (if PrimFloat.ltb cur v then v else cur)) as [H | H].
  - destruct (PrimFloat.ltb cur v); rewrite <- H; auto.
  - auto.
Qed.

Lemma min_from_le (cur : float) (l : list float) :
  is_nan cur = false -> Forall (fun v => is_nan v = false) l ->
  Forall (fun v => PrimFloat.leb (min_from cur l) v = true) (cur :: l).
Proof.
  revert cur. induction l as [ | v l IH]; intros cur Hc Hl; simpl.
  - constructor; [ now apply leb_refl | constructor ].
  - inversion Hl as [ | ? ? Hv Hl']; subst.
    destruct (PrimFloat.ltb v cur) eqn:E.
    + specialize (IH v Hv Hl'). inversion IH as [ | ? ? Hmv Hrest]; subst.
      constructor; [ | now constructor ].
      apply (leb_trans _ v); [ exact Hmv | now apply ltb_leb ].
    + specialize (IH cur Hc Hl'). inversion IH as [ | ? ? Hmc Hrest]; subst.
      constructor; [ exact Hmc | constructor; [ | exact Hrest ] ].
      apply (leb_trans _ cur); [ exact Hmc | now apply not_ltb_leb ].
Qed.

Lemma max_from_ge (cur : float) (l : list float) :
  is_nan cur = false -> Forall (fun v => is_nan v = false) l ->
  Forall (fun v => PrimFloat.leb v (max_from cur l) = true) (cur :: l).
Proof.
  revert cur. induction l as [ | v l IH]; intros cur Hc Hl; simpl.
  - constructor; [ now apply leb_refl | constructor ].
  - inversion Hl as [ | ? ? Hv Hl']; subst.
    destruct (PrimFloat.ltb cur v) eqn:E.
    + specialize (IH v Hv Hl'). inversion IH as [ | ? ? Hmv Hrest]; subst.
      constructor; [ | now constructor ].
      apply (leb_trans _ v); [ now apply ltb_leb | exact Hmv ].
    + specialize (IH cur Hc Hl'). inversion IH as [ | ? ? Hmc Hrest]; subst.
      constructor; [ exact Hmc | constructor; [ | exact Hrest ] ].
      apply (leb_trans _ cur); [ now apply not_ltb_leb | exact Hmc ].
Qed.

(** The values a generator expression [c[i] for c in cs] yields. *)
Lemma items_OK (i : nat) (cs : list (list float)) (vs : list float) :
  items i cs = OK vs <-> Forall2 (fun c v => item i c = OK v) cs vs.
Proof.
  revert vs. induction cs as [ | c cs IH]; intros vs; simpl.
  - split.
    + intros H. injection H as <-. constructor.
    + intros H. inversion H. reflexivity.
  - split.
    + intros H. bind_inv H. bind_inv H. injection H as <-.
      constructor; [ exact E | now apply IH ].
    + intros H. inversion H as [ | ? v ? vs' Hc Hrest]; subst.
      rewrite Hc. cbn [Py.bind]. apply IH in Hrest. now rewrite Hrest.
Qed.

Lemma items_succeeds (i : nat) (cs : list (list float)) :
  Py.succeeds (items i cs) = forallb (fun c => (i <? length c)%nat) cs.
Proof.
  induction cs as [ | c cs IH]; simpl; [ reflexivity | ].
  unfold item. destruct (nth_error c i) as [v | ] eqn:E; cbn [Py.bind].
  - assert (H : (i < length c)%nat) by (apply nth_error_Some; congruence).
    apply Nat.ltb_lt in H. rewrite H. simpl. rewrite <- IH.
    now destruct (items i cs).
  - apply nth_error_None in E. apply Nat.ltb_ge in E. now rewrite E.
Qed.

Lemma items_Raise (i : nat) (cs : list (list float)) (e : exn) :
  items i cs = Raise e -> e = IndexError.
Proof.
  induction cs as [ | c cs IH]; simpl; [ discriminate | ].
  unfold item. destruct (nth_error c i); cbn [Py.bind]; [ | congruence ].
  destruct (items i cs); cbn [Py.bind]; [ discriminate | ].
  intros H. injection H as <-. now apply IH.
Qed.


Lemma py_min_OK (l : list float) (m : float) :
  py_min l = OK m <-> exists v l', l = v :: l' /\ m = min_from v l'.
Proof.
  destruct l as [ | v l']; simpl; split.
  - discriminate.
  - intros (v & l' & H & _). discriminate.
  - intros H. injection H as <-. now exists v, l'.
  - intros (v' & l'' & H & ->). now injection H as <- <-.
Qed.

Lemma py_max_OK (l : list float) (m : float) :
  py_max l = OK m <-> exists v l', l = v :: l' /\ m = max_from v l'.
Proof.
  destruct l as [ | v l']; simpl; split.
  - discriminate.
  - intros (v & l' & H & _). discriminate.
  - intros H. injection H as <-. now exists v, l'.
  - intros (v' & l'' & H & ->). now injection H as <- <-.
Qed.

(** What a successful [bounding_box] has computed: the longitudes and the
    latitudes of all positions, and their extremes as [min] and [max]
    find them. *)
Lemma bounding_box_OK (g : geojson) (b : bbox) :
  bounding_box g = OK b ->
  exists lon0 lons lat0 lats,
    items 0 (all_coords g) = OK (lon0 :: lons)
    /\ items 1 (all_coords g) = OK (lat0 :: lats)
    /\ b = BBox (min_from lon0 lons) (min_from lat0 lats)
                (max_from lon0 lons) (max_from lat0 lats).
Proof.
  unfold bounding_box. intros H.
  bind_inv H. bind_inv E. bind_inv H. bind_inv E1. bind_inv H. bind_inv E3.
  bind_inv H. bind_inv E5. injection H as <-.
  apply py_min_OK in E as (lon0 & lons & -> & ->).
  apply py_max_OK in E1 as (lon0' & lons' & -> & ->).
  apply py_min_OK in E3 as (lat0 & lats & -> & ->).
  apply py_max_OK in E5 as (lat0' & lats' & -> & ->).
  rewrite E0 in E2. injection E2 as <- <-.
  rewrite E4 in E6. injection E6 as <- <-.
  now exists lon0, lons, lat0, lats.
Qed.

Lemma bounding_box_nonempty (g : geojson) :
  all_coords g <> [] ->
  bounding_box g =
    if forallb (fun c => (1 <? length c)%nat) (all_coords g)
    then (let! lons := items 0 (all_coords g) in
          let! lats := items 1 (all_coords g) in
          match lons, lats with
          | lon0 :: lons', lat0 :: lats' =>
              OK (BBox (min_from lon0 lons') (min_from lat0 lats')
                       (max_from lon0 lons') (max_from lat0 lats'))
          | _, _ => Raise ValueError
          end)
    else Raise IndexError.
Proof.
  intros Hne. unfold bounding_box.
  pose proof (items_succeeds 0 (all_coords g)) as H0.
  pose proof (items_succeeds 1 (all_coords g)) as H1.
  destruct (items 0 (all_coords g)) as [lons | e0] eqn:E0.
  - assert (Hl : lons <> []).
    { apply items_OK in E0. intros ->. inversion E0. congruence. }
    destruct lons as [ | lon0 lons']; [ congruence | ]. cbn [Py.bind py_min py_max].
    destruct (items 1 (all_coords g)) as [lats | e1] eqn:E1.
    + assert (Hl' : lats <> []).
      { apply items_OK in E1. intros ->. inversion E1. congruence. }
      destruct lats as [ | lat0 lats']; [ congruence | ]. cbn [Py.bind py_min py_max].
      simpl in H1. now rewrite <- H1.
    + cbn [Py.bind]. simpl in H1. rewrite <- H1.
      now rewrite (items_Raise _ _ _ E1).
  - cbn [Py.bind]. rewrite (items_Raise _ _ _ E0).
    simpl in H0.
    assert (Hf : forallb (fun c => (1 <? length c)%nat) (all_coords g) = false).
    { apply not_true_is_false. intros Ht. rewrite forallb_forall in Ht.
      symmetry in H0. apply not_true_iff_false in H0. apply H0.
      apply forallb_forall. intros c Hc. specialize (Ht c Hc).
      apply Nat.ltb_lt in Ht. apply Nat.ltb_lt. lia. }
    now rewrite Hf.
Qed.

End BoundingBox.


Section BoundingBoxProperties.

Lemma item_firstn (i n : nat) (c : list float) (v : float) :
  (i < n)%nat -> item i c = OK v -> In v (firstn n c).
Proof.
  unfold item. intros Hi H. destruct (nth_error c i) as [w | ] eqn:E; [ | discriminate ].
  injection H as ->. apply (nth_error_In _ i).
  rewrite nth_error_firstn. apply Nat.ltb_lt in Hi. now rewrite Hi.
Qed.

Lemma items_In (i : nat) (cs : list (list float)) (vs : list float) (v : float) :
  items i cs = OK vs -> In v vs -> exists c, In c cs /\ item i c = OK v.
Proof.
  rewrite items_OK. induction 1 as [ | c w cs vs Hc Hrest IH]; intros Hin.
  - destruct Hin.
  - destruct Hin as [<- | Hin].
    + exists c. split; [ now left | exact Hc ].
    + destruct (IH Hin) as (c' & Hc' & Hv). exists c'. split; [ now right | exact Hv ].
Qed.

Lemma items_In_inv (i : nat) (cs : list (list float)) (vs : list float)
    (c : list float) (v : float) :
  items i cs = OK vs -> In c cs -> item i c = OK v -> In v vs.
Proof.
  rewrite items_OK. induction 1 as [ | c' w cs vs Hc Hrest IH]; intros Hin Hv.
  - destruct Hin.
  - destruct Hin as [-> | Hin].
    + left. congruence.
    + right. now apply IH.
Qed.

Lemma items_no_nan (i : nat) (cs : list (list float)) (vs : list float) :
  (i < 2)%nat -> no_nan cs -> items i cs = OK vs ->
  Forall (fun v => is_nan v = false) vs.
Proof.
  intros Hi Hn H. apply List.Forall_forall. intros v Hv.
  destruct (items_In i cs vs v H Hv) as (c & Hc & Hitem).
  unfold no_nan in Hn. rewrite List.Forall_forall in Hn. specialize (Hn c Hc).
  rewrite List.Forall_forall in Hn. apply Hn. now apply (item_firstn i).
Qed.

(** X1. The bounding box of a collection exists exactly when the
    collection has at least one position and every position has at least
    two items. With no position at all [min] raises [ValueError]; with a
    position of fewer than two items the subscript raises [IndexError].
    Items beyond the second one are accepted and ignored. *)
Theorem bounding_box_outcomes (g : geojson) :
  (Py.succeeds (bounding_box g) = true
   <-> all_coords g <> [] /\ Forall (fun c => (2 <= length c)%nat) (all_coords g))
  /\ (bounding_box g = Raise ValueError <-> all_coords g = [])
  /\ (bounding_box g = Raise IndexError
      <-> all_coords g <> [] /\ Exists (fun c => (length c < 2)%nat) (all_coords g)).
Proof.
  destruct (all_coords g) as [ | c0 cs] eqn:Ecs.
  - rewrite (bounding_box_empty g Ecs). cbn.
    repeat split; try discriminate; try tauto; intros [H _]; congruence.
  - assert (Hne : all_coords g <> []) by congruence.
    rewrite (bounding_box_nonempty g Hne), Ecs.
    pose proof (items_succeeds 0 (c0 :: cs)) as H0.
    pose proof (items_succeeds 1 (c0 :: cs)) as H1.
    destruct (forallb (fun c => (1 <? length c)%nat) (c0 :: cs)) eqn:Ef.
    + assert (Hall : Forall (fun c => (2 <= length c)%nat) (c0 :: cs)).
      { apply List.Forall_forall. intros c Hc. rewrite forallb_forall in Ef.
        specialize (Ef c Hc). apply Nat.ltb_lt in Ef. lia. }
      assert (Ef0 : forallb (fun c => (0 <? length c)%nat) (c0 :: cs) = true).
      { apply forallb_forall. intros c Hc. rewrite List.Forall_forall in Hall.
        specialize (Hall c Hc). apply Nat.ltb_lt. lia. }
      rewrite Ef0 in H0.
      destruct (items 0 (c0 :: cs)) as [lons | ] eqn:E0; [ | discriminate ].
      destruct (items 1 (c0 :: cs)) as [lats | ] eqn:E1; [ | discriminate ].
      apply items_OK in E0, E1. inversion E0; subst. inversion E1; subst.
      cbn. repeat split; try discriminate; try congruence.
      intros [_ Hex]. apply List.Exists_exists in Hex as (c & Hc & Hlt).
      rewrite List.Forall_forall in Hall. specialize (Hall c Hc). lia.
    + assert (Hex : Exists (fun c => (length c < 2)%nat) (c0 :: cs)).
      { apply List.Exists_exists. apply not_true_iff_false in Ef.
        destruct (existsb (fun c => negb (1 <? length c)%nat) (c0 :: cs)) eqn:Ex.
        - apply existsb_exists in Ex as (c & Hc & Hn). exists c. split; [ exact Hc | ].
          apply negb_true_iff, Nat.ltb_ge in Hn. lia.
        - exfalso. apply Ef. apply forallb_forall. intros c Hc.
          destruct (1 <? length c)%nat eqn:E; [ reflexivity | ].
          assert (existsb (fun c => negb (1 <? length c)%nat) (c0 :: cs) = true); [ | congruence ].
          apply existsb_exists. exists c. now rewrite E. }
      cbn. repeat split; try discriminate; try congruence; try tauto.
      intros [_ Hall]. apply List.Exists_exists in Hex as (c & Hc & Hlt).
      rewrite List.Forall_forall in Hall. specialize (Hall c Hc). lia.
Qed.

(** X2. Each side of the bounding box is a coordinate that occurs in the
    collection: the west and east sides are longitudes of positions, the
    south and north sides are latitudes of positions. *)
Theorem bounding_box_attained (g : geojson) (b : bbox) :
  bounding_box g = OK b ->
  (exists c, In c (all_coords g) /\ item 0 c = OK (min_lon b))
  /\ (exists c, In c (all_coords g) /\ item 0 c = OK (max_lon b))
  /\ (exists c, In c (all_coords g) /\ item 1 c = OK (min_lat b))
  /\ (exists c, In c (all_coords g) /\ item 1 c = OK (max_lat b)).
Proof.
  intros H. apply bounding_box_OK in H as (lon0 & lons & lat0 & lats & E0 & E1 & ->).
  cbn [min_lon max_lon min_lat max_lat].
  repeat split.
  - apply (items_In 0 _ _ _ E0), min_from_In.
  - apply (items_In 0 _ _ _ E0), max_from_In.
  - apply (items_In 1 _ _ _ E1), min_from_In.
  - apply (items_In 1 _ _ _ E1), max_from_In.
Qed.

(** X3. When no longitude and no latitude is NaN, the box is well
    formed (west side not east of the east side, south side not north of
    the north side) and every position of the collection lies inside it. *)
Theorem bounding_box_encloses (g : geojson) (b : bbox) :
  bounding_box g = OK b ->
  no_nan (all_coords g) ->
  PrimFloat.leb (min_lon b) (max_lon b) = true
  /\ PrimFloat.leb (min_lat b) (max_lat b) = true
  /\ forall c lon lat,
       In c (all_coords g) -> item 0 c = OK lon -> item 1 c = OK lat ->
       box_contains b lon lat = true.
Proof.
  intros H Hn. apply bounding_box_OK in H as (lon0 & lons & lat0 & lats & E0 & E1 & ->).
  pose proof (items_no_nan 0 _ _ ltac:(lia) Hn E0) as N0.
  pose proof (items_no_nan 1 _ _ ltac:(lia) Hn E1) as N1.
  inversion N0 as [ | ? ? Hlon0 Hlons]; subst. inversion N1 as [ | ? ? Hlat0 Hlats]; subst.
  pose proof (min_from_le lon0 lons Hlon0 Hlons) as Lmin.
  pose proof (max_from_ge lon0 lons Hlon0 Hlons) as Lmax.
  pose proof (min_from_le lat0 lats Hlat0 Hlats) as Tmin.
  pose proof (max_from_ge lat0 lats Hlat0 Hlats) as Tmax.
  rewrite List.Forall_forall in Lmin, Lmax, Tmin, Tmax.
  cbn [min_lon max_lon min_lat max_lat]. repeat split.
  - apply (leb_trans _ lon0); [ apply Lmin | apply Lmax ]; now left.
  - apply (leb_trans _ lat0); [ apply Tmin | apply Tmax ]; now left.
  - intros c lon lat Hc Hlon Hlat. unfold box_contains.
    cbn [min_lon max_lon min_lat max_lat].
    pose proof (items_In_inv 0 _ _ c lon E0 Hc Hlon) as I0.
    pose proof (items_In_inv 1 _ _ c lat E1 Hc Hlat) as I1.
    now rewrite (Lmin lon I0), (Lmax lon I0), (Tmin lat I1), (Tmax lat I1).
Qed.

Lemma bounding_box_attained_witness :
  (exists c, In c (all_coords Examples.crystal)
             /\ item 0 c = OK (min_lon Examples.crystal_box))
  /\ (exists c, In c (all_coords Examples.crystal)
                /\ item 0 c = OK (max_lon Examples.crystal_box))
  /\ (exists c, In c (all_coords Examples.crystal)
                /\ item 1 c = OK (min_lat Examples.crystal_box))
  /\ (exists c, In c (all_coords Examples.crystal)
                /\ item 1 c = OK (max_lat Examples.crystal_box)).
Proof.
  apply (bounding_box_attained Examples.crystal Examples.crystal_box).
  vm_compute. reflexivity.
Defined.

Lemma bounding_box_encloses_witness :
  PrimFloat.leb (min_lon Examples.crystal_box) (max_lon Examples.crystal_box) = true
  /\ PrimFloat.leb (min_lat Examples.crystal_box) (max_lat Examples.crystal_box) = true
  /\ forall c lon lat,
       In c (all_coords Examples.crystal) -> item 0 c = OK lon -> item 1 c = OK lat ->
       box_contains Examples.crystal_box lon lat = true.
Proof.
  apply (bounding_box_encloses Examples.crystal Examples.crystal_box).
  - vm_compute. reflexivity.
  - repeat constructor.
Defined.

End BoundingBoxProperties.

(** ** The rasterizer, feature by feature *)

Section RasterizerMore.

Variable L : libm.
Variables zoom tile_x tile_y tile_size : Z.
Variables nw se : float * float.

Local Abbreviation pixels_at := (feature_pixels L zoom tile_x tile_y tile_size nw se).
Local Abbreviation draw_at := (draw_feature L zoom tile_x tile_y tile_size nw se).
Local Abbreviation draw_all_at := (draw_features L zoom tile_x tile_y tile_size nw se).

Lemma unpack2_OK (c : list float) (lon lat : float) :
  unpack2 c = OK (lon, lat) <-> c = [lon; lat].
Proof.
  split.
  - destruct c as [ | a [ | b [ | ? ?]]]; simpl; try discriminate.
    intros H. now injection H as <- <-.
  - now intros ->.
Qed.

Lemma feature_pixels_lengths (coords : list (list float)) (pixels : list (Z * Z)) :
  pixels_at coords = OK pixels -> Forall (fun c => length c = 2%nat) coords.
Proof.
  revert pixels. induction coords as [ | c rest IH]; intros pixels H; [ constructor | ].
  simpl in H. bind_inv H. destruct a as [lon lat]. apply unpack2_OK in E. subst c.
  apply bind_OK_inv in H as (here & _ & H).
  apply bind_OK_inv in H as (more & Hmore & _).
  constructor; [ reflexivity | exact (IH _ Hmore) ].
Qed.

(** X4. When the pixels of a feature can be computed, every position of
    the feature has exactly two items, and the pixels are the projections
    of the positions near the tile: one pixel for each such position, in
    the order of the positions. Positions away from the tile leave no
    gap marker, so the line joins the neighbours of a skipped position. *)
Theorem feature_pixels_in_order (coords : list (list float)) (pixels : list (Z * Z)) :
  pixels_at coords = OK pixels ->
  Forall (fun c => length c = 2%nat) coords
  /\ Forall2
       (fun c p => exists lon lat,
            c = [lon; lat]
            /\ lon_lat_to_pixel L lon lat zoom tile_x tile_y tile_size = OK p)
       (near_positions nw se coords) pixels.
Proof.
  revert pixels. induction coords as [ | c rest IH]; intros pixels H; simpl in H.
  - injection H as <-. split; constructor.
  - bind_inv H. destruct a as [lon lat]. apply unpack2_OK in E. subst c.
    apply bind_OK_inv in H as (here & Hhere & H).
    apply bind_OK_inv in H as (more & Hmore & H). injection H as <-.
    destruct (IH _ Hmore) as [Hlen Hrest].
    split; [ constructor; [ reflexivity | exact Hlen ] | ].
    unfold near_positions. cbn [List.filter].
    destruct (near_tile nw se lon lat).
    + apply bind_OK_inv in Hhere as (p & Hp & Hhere). injection Hhere as <-. cbn [app].
      constructor; [ now exists lon, lat | exact Hrest ].
    + injection Hhere as <-. exact Hrest.
Qed.

Lemma get_lift_color_is_color (t : string) : is_color (get_lift_color t) = true.
Proof.
  unfold get_lift_color. destruct (colors !! t) as [c | ] eqn:E; [ | reflexivity ].
  now apply colors_lookup_Some, color_table_valid in E.
Qed.

Lemma draw_feature_lines (f : feature) (ls : list line) :
  draw_at f = OK ls -> (length ls <= 1)%nat /\ Forall (well_drawn zoom) ls.
Proof.
  unfold draw_feature. intros H. apply bind_OK_inv in H as (pixels & Hpixels & H).
  destruct (Nat.leb_spec 2 (length pixels)) as [Hlen | Hlen]; injection H as <-.
  - split; [ simpl; lia | ]. constructor; [ | constructor ].
    repeat split; [ exact Hlen | apply get_lift_color_is_color ].
  - split; [ simpl; lia | constructor ].
Qed.

Lemma draw_features_lines (fs : list feature) (ls : list line) :
  draw_all_at fs = OK ls ->
  (length ls <= length fs)%nat /\ Forall (well_drawn zoom) ls.
Proof.
  revert ls. induction fs as [ | f fs IH]; intros ls H; simpl in H.
  - injection H as <-. split; [ reflexivity | constructor ].
  - apply bind_OK_inv in H as (lf & Hlf & H).
    apply bind_OK_inv in H as (more & Hmore & H). injection H as <-.
    destruct (draw_feature_lines f lf Hlf) as [H1 H2].
    destruct (IH more Hmore) as [H3 H4].
    split; [ rewrite length_app; simpl; lia | now apply Forall_app ].
Qed.

Lemma draw_features_app (fs1 fs2 : list feature) :
  draw_all_at (fs1 ++ fs2)
  = (let! l1 := draw_all_at fs1 in
     let! l2 := draw_all_at fs2 in
     OK (l1 ++ l2)).
Proof.
  induction fs1 as [ | f fs1 IH]; simpl.
  - now destruct (draw_all_at fs2).
  - destruct (draw_at f) as [lf | e]; cbn [Py.bind]; [ | reflexivity ].
    rewrite IH. destruct (draw_all_at fs1) as [l1 | e]; cbn [Py.bind]; [ | reflexivity ].
    destruct (draw_all_at fs2) as [l2 | e]; cbn [Py.bind]; [ | reflexivity ].
    now rewrite app_assoc.
Qed.

Lemma feature_pixels_malformed (coords : list (list float)) :
  Exists (fun c => length c <> 2%nat) coords -> Py.succeeds (pixels_at coords) = false.
Proof.
  intros Hex. destruct (pixels_at coords) as [pixels | e] eqn:E; [ | reflexivity ].
  apply feature_pixels_lengths in E as Hlen. exfalso.
  apply List.Exists_exists in Hex as (c & Hc & Hbad).
  rewrite List.Forall_forall in Hlen. now apply Hbad, Hlen.
Qed.

Lemma draw_features_malformed (fs : list feature) :
  Exists (fun f => Exists (fun c => length c <> 2%nat) (coordinates f)) fs ->
  Py.succeeds (draw_all_at fs) = false.
Proof.
  induction fs as [ | f fs IH]; intros Hex; [ inversion Hex | ]. simpl.
  destruct (draw_at f) as [lf | e] eqn:E; cbn [Py.bind]; [ | reflexivity ].
  inversion Hex as [? ? Hbad | ? ? Hrest]; subst.
  - unfold draw_feature in E.
    pose proof (feature_pixels_malformed _ Hbad) as Hp.
    destruct (pixels_at (coordinates f)); [ discriminate | discriminate ].
  - specialize (IH Hrest). destruct (draw_all_at fs); [ discriminate | reflexivity ].
Qed.

End RasterizerMore.

Section TileImage.

Variable L : libm.

(** X5. A rendered tile has the requested side, holds at most one line
    per feature, and each of its lines has at least two pixels, the width
    of the zoom level and a colour of the form [#RRGGBB]. *)
Theorem render_tile_lines (g : geojson) (zoom tile_x tile_y tile_size : Z) (img : image) :
  render_tile L g zoom tile_x tile_y tile_size = OK img ->
  image_size img = tile_size
  /\ (length (image_lines img) <= length (features g))%nat
  /\ Forall (well_drawn zoom) (image_lines img).
Proof.
  unfold render_tile. intros H.
  apply bind_OK_inv in H as (nw & _ & H). apply bind_OK_inv in H as (se & _ & H).
  apply bind_OK_inv in H as (ls & Hls & H). injection H as <-.
  cbn [image_size image_lines]. split; [ reflexivity | ].
  now apply draw_features_lines in Hls.
Qed.

(** X6. Features are drawn independently and in order: the tile of a
    collection is the tile of its first features with the lines of the
    remaining features drawn over them, and it fails with the first
    failure of the parts. *)
Theorem render_tile_app (fs1 fs2 : list feature) (zoom tile_x tile_y tile_size : Z) :
  render_tile L (GeoJSON (fs1 ++ fs2)) zoom tile_x tile_y tile_size
  = (let! below := render_tile L (GeoJSON fs1) zoom tile_x tile_y tile_size in
     let! above := render_tile L (GeoJSON fs2) zoom tile_x tile_y tile_size in
     OK (Image tile_size (image_lines below ++ image_lines above))).
Proof.
  unfold render_tile. cbn [features].
  destruct (tile_to_lon_lat L tile_x tile_y zoom) as [nw | e]; cbn [Py.bind]; [ | reflexivity ].
  destruct (tile_to_lon_lat L (tile_x + 1) (tile_y + 1) zoom) as [se | e];
    cbn [Py.bind]; [ | reflexivity ].
  rewrite draw_features_app.
  destruct (draw_features L zoom tile_x tile_y tile_size nw se fs1) as [l1 | e];
    cbn [Py.bind]; [ | reflexivity ].
  destruct (draw_features L zoom tile_x tile_y tile_size nw se fs2) as [l2 | e];
    cbn [Py.bind]; reflexivity.
Qed.

(** X7. A collection in which some position does not have exactly two
    items cannot be rendered on any tile: the loop header
    [for lon, lat in coords] raises before or at that position, although
    the bounding box accepts positions of three items. *)
Theorem render_tile_malformed (g : geojson) (zoom tile_x tile_y tile_size : Z) :
  Exists (fun f => Exists (fun c => length c <> 2%nat) (coordinates f)) (features g) ->
  Py.succeeds (render_tile L g zoom tile_x tile_y tile_size) = false.
Proof.
  intros Hex. unfold render_tile.
  destruct (tile_to_lon_lat L tile_x tile_y zoom) as [nw | e]; cbn [Py.bind]; [ | reflexivity ].
  destruct (tile_to_lon_lat L (tile_x + 1) (tile_y + 1) zoom) as [se | e];
    cbn [Py.bind]; [ | reflexivity ].
  pose proof (draw_features_malformed L zoom tile_x tile_y tile_size nw se _ Hex) as H.
  destruct (draw_features _ _ _ _ _ _ _ _); [ discriminate | reflexivity ].
Qed.

End TileImage.

Lemma feature_pixels_in_order_witness :
  Forall (fun c => length c = 2%nat) [Examples.chair_top; Examples.chair_bottom]
  /\ Forall2
       (fun c p => exists lon lat,
            c = [lon; lat]
            /\ lon_lat_to_pixel SoftLibm.soft lon lat 12 665 1441 256 = OK p)
       (near_positions Examples.crystal_nw Examples.crystal_se
          [Examples.chair_top; Examples.chair_bottom])
       [(229, 193); (240, 214)]%Z.
Proof.
  apply (feature_pixels_in_order SoftLibm.soft 12 665 1441 256
           Examples.crystal_nw Examples.crystal_se).
  vm_compute. reflexivity.
Defined.

Lemma render_tile_lines_witness :
  image_size (Image 256 [Line [(229, 193); (240, 214)]%Z "#0066FF" 2]) = 256%Z
  /\ (length (image_lines (Image 256 [Line [(229, 193); (240, 214)]%Z "#0066FF" 2]))
      <= length (features Examples.crystal))%nat
  /\ Forall (well_drawn 12)
       (image_lines (Image 256 [Line [(229, 193); (240, 214)]%Z "#0066FF" 2])).
Proof.
  apply (render_tile_lines SoftLibm.soft Examples.crystal 12 665 1441 256).
  vm_compute. reflexivity.
Defined.

Lemma render_tile_malformed_witness :
  Py.succeeds (render_tile SoftLibm.soft Unusual.with_elevation 12 665 1441 256) = false.
Proof.
  apply (render_tile_malformed SoftLibm.soft Unusual.with_elevation 12 665 1441 256).
  apply Exists_cons_hd, Exists_cons_hd. discriminate.
Defined.


(** ** Traces of the run *)

Section IOFacts.

Context {A B : Type}.

Lemma trace_bind (m : IO.io A) (k : A -> IO.io B) :
  IO.trace (IO.bind m k)
  = IO.trace m ++ match IO.outcome m with
                  | OK a => IO.trace (k a)
                  | Raise _ => []
                  end.
Proof.
  destruct m as [t [a | e]]; simpl.
  - now destruct (k a).
  - now rewrite app_nil_r.
Qed.

Lemma outcome_bind (m : IO.io A) (k : A -> IO.io B) :
  IO.outcome (IO.bind m k)
  = match IO.outcome m with
    | OK a => IO.outcome (k a)
    | Raise e => Raise e
    end.
Proof. destruct m as [t [a | e]]; simpl; [ now destruct (k a) | reflexivity ]. Qed.

Lemma trace_bind_Forall (P : event -> Prop) (m : IO.io A) (k : A -> IO.io B) :
  Forall P (IO.trace m) ->
  (forall a, IO.outcome m = OK a -> Forall P (IO.trace (k a))) ->
  Forall P (IO.trace (IO.bind m k)).
Proof.
  intros Hm Hk. rewrite trace_bind. apply Forall_app. split; [ exact Hm | ].
  destruct (IO.outcome m) as [a | e]; [ now apply Hk | constructor ].
Qed.

End IOFacts.

Ltac trace_step :=
  apply trace_bind_Forall; [ try (repeat constructor; fail) | intros ? _ ].

Ltac trace_step_as a H :=
  apply trace_bind_Forall; [ try (repeat constructor; fail) | intros a H; cbn in H ].

Section Loops.

Context {A S : Type}.

Lemma trace_for_fold_Forall (P : event -> Prop) (l : list A) (body : A -> S -> IO.io S) :
  (forall a s, In a l -> Forall P (IO.trace (body a s))) ->
  forall s, Forall P (IO.trace (IO.for_fold l body s)).
Proof.
  induction l as [ | a l IH]; intros Hbody s; simpl.
  - constructor.
  - rewrite trace_bind. apply Forall_app. split.
    + apply Hbody. now left.
    + destruct (IO.outcome (body a s)); [ | constructor ].
      apply IH. intros a' s' Ha'. apply Hbody. now right.
Qed.

Lemma for_fold_flat_map {X : Type} (h : event -> list X) (full : A -> list X)
    (l : list A) (body : A -> S -> IO.io S) :
  (forall a s s', In a l -> IO.outcome (body a s) = OK s' ->
                  flat_map h (IO.trace (body a s)) = full a) ->
  forall s s', IO.outcome (IO.for_fold l body s) = OK s' ->
               flat_map h (IO.trace (IO.for_fold l body s)) = flat_map full l.
Proof.
  induction l as [ | a l IH]; intros Hbody s s'; simpl; [ reflexivity | ].
  rewrite outcome_bind, trace_bind, flat_map_app.
  destruct (IO.outcome (body a s)) as [s1 | e] eqn:Hs1; [ | discriminate ].
  intros Hrest. f_equal.
  - apply (Hbody a s s1); [ now left | exact Hs1 ].
  - apply (IH (fun a' s0 s0' Ha' => Hbody a' s0 s0' (or_intror Ha')) s1 s'), Hrest.
Qed.

Lemma for_fold_prefix {X : Type} (h : event -> list X) (full : A -> list X)
    (l : list A) (body : A -> S -> IO.io S) :
  (forall a s, In a l -> flat_map h (IO.trace (body a s)) `prefix_of` full a) ->
  (forall a s s', In a l -> IO.outcome (body a s) = OK s' ->
                  flat_map h (IO.trace (body a s)) = full a) ->
  forall s, flat_map h (IO.trace (IO.for_fold l body s)) `prefix_of` flat_map full l.
Proof.
  induction l as [ | a l IH]; intros Hpre Hbody s; simpl; [ reflexivity | ].
  rewrite trace_bind, flat_map_app.
  destruct (IO.outcome (body a s)) as [s1 | e] eqn:Hs1.
  - rewrite (Hbody a s s1 (or_introl eq_refl) Hs1). apply prefix_app.
    apply IH; intros; [ apply Hpre | eapply Hbody ]; try (right; eassumption); eassumption.
  - simpl. rewrite app_nil_r.
    etransitivity; [ apply Hpre; now left | apply prefix_app_r; reflexivity ].
Qed.

Lemma for_fold_outcome_OK (l : list A) (body : A -> S -> IO.io S) (s s' : S) :
  IO.outcome (IO.for_fold l body s) = OK s' ->
  forall a, In a l -> exists s0 s1, IO.outcome (body a s0) = OK s1.
Proof.
  revert s. induction l as [ | a l IH]; intros s H a' Ha'; [ destruct Ha' | ].
  simpl in H. rewrite outcome_bind in H.
  destruct (IO.outcome (body a s)) as [s1 | e] eqn:Hs1; [ | discriminate ].
  destruct Ha' as [<- | Ha']; [ now exists s, s1 | exact (IH s1 H a' Ha') ].
Qed.

End Loops.

Section RunMore.

Variable L : libm.
Variable g : geojson.
Variable mountain_id : string.
Variable tile_size : Z.

Local Open Scope Z_scope.

Lemma saved_tiles_app (t t' : list event) :
  saved_tiles (t ++ t') = saved_tiles t ++ saved_tiles t'.
Proof. apply flat_map_app. Qed.

Lemma reported_counts_app (t t' : list event) :
  reported_counts (t ++ t') = reported_counts t ++ reported_counts t'.
Proof. apply flat_map_app. Qed.

(** *** Tiles that are saved were planned and rendered *)

Lemma tile_step_trace (zoom tile_x tile_y tile_count : Z) :
  IO.trace (tile_step L g mountain_id zoom tile_size tile_x tile_y tile_count)
  = match render_tile L g zoom tile_x tile_y tile_size with
    | OK img => [SaveTile mountain_id zoom tile_x tile_y img]
    | Raise _ => []
    end.
Proof. unfold tile_step. now destruct (render_tile L g zoom tile_x tile_y tile_size). Qed.

Lemma tile_step_outcome (zoom tile_x tile_y tile_count : Z) :
  IO.outcome (tile_step L g mountain_id zoom tile_size tile_x tile_y tile_count)
  = match render_tile L g zoom tile_x tile_y tile_size with
    | OK _ => OK (tile_count + 1)
    | Raise e => Raise e
    end.
Proof. unfold tile_step. now destruct (render_tile L g zoom tile_x tile_y tile_size). Qed.

Lemma zoom_step_saves (zoom_min zoom_max : Z) (b : bbox) (zoom : Z) :
  bounding_box g = OK b ->
  zoom_min <= zoom <= zoom_max ->
  Forall (tile_of_run L g mountain_id zoom_min zoom_max tile_size)
    (IO.trace (zoom_step L g mountain_id tile_size b zoom tt)).
Proof.
  intros Hb Hz. unfold zoom_step.
  trace_step. trace_step_as r Hr.
  do 4 trace_step; [ | repeat constructor ].
  apply trace_for_fold_Forall. intros x c Hx. apply in_range in Hx.
  unfold column_step. trace_step.
  apply trace_for_fold_Forall. intros y c' Hy. apply in_range in Hy.
  rewrite tile_step_trace.
  destruct (render_tile L g zoom x y tile_size) as [img | e] eqn:Himg; [ | constructor ].
  constructor; [ | constructor ].
  cbn. split; [ reflexivity | ]. split; [ lia | ]. split; [ | exact Himg ].
  exists b, r. repeat split; try assumption; lia.
Qed.

(** X8. Whatever the run does, a tile it saves carries the mountain of
    the run, has a zoom level between [zoom_min] and [zoom_max], lies in
    the tile range planned for that level from the bounding box, and
    holds exactly the rendering of that tile. *)
Theorem saved_tiles_belong (zoom_min zoom_max : Z) :
  Forall (tile_of_run L g mountain_id zoom_min zoom_max tile_size)
    (IO.trace (generate_tiles L (Some g) mountain_id zoom_min zoom_max tile_size)).
Proof.
  unfold generate_tiles.
  do 2 trace_step. trace_step_as b Hb.
  do 2 trace_step; [ | repeat constructor ].
  apply trace_for_fold_Forall. intros zoom [] Hz. apply in_range in Hz.
  apply zoom_step_saves; [ exact Hb | lia ].
Qed.

(** *** The tiles of a run are the planned ones, in order *)

Lemma tile_loop_count (zoom tile_x : Z) (ys : list Z) (c c' : Z) :
  IO.outcome (IO.for_fold ys (tile_step L g mountain_id zoom tile_size tile_x) c) = OK c' ->
  c' = c + Z.of_nat (length ys).
Proof.
  revert c. induction ys as [ | y ys IH]; intros c; simpl.
  - intros H. injection H as <-. lia.
  - rewrite outcome_bind, tile_step_outcome.
    destruct (render_tile L g zoom tile_x y tile_size); [ | discriminate ].
    intros H. apply IH in H. lia.
Qed.

Lemma tile_step_saved (zoom tile_x tile_y c : Z) :
  saved_tiles (IO.trace (tile_step L g mountain_id zoom tile_size tile_x tile_y c))
  `prefix_of` [(zoom, tile_x, tile_y)].
Proof.
  rewrite tile_step_trace.
  destruct (render_tile L g zoom tile_x tile_y tile_size); simpl;
    [ reflexivity | apply prefix_nil ].
Qed.

Lemma tile_step_saved_OK (zoom tile_x tile_y c c' : Z) :
  IO.outcome (tile_step L g mountain_id zoom tile_size tile_x tile_y c) = OK c' ->
  saved_tiles (IO.trace (tile_step L g mountain_id zoom tile_size tile_x tile_y c))
  = [(zoom, tile_x, tile_y)].
Proof.
  rewrite tile_step_trace, tile_step_outcome.
  now destruct (render_tile L g zoom tile_x tile_y tile_size).
Qed.

Lemma flat_map_singleton {X Y : Type} (f : X -> Y) (l : list X) :
  flat_map (fun x => [f x]) l = map f l.
Proof. induction l; simpl; congruence. Qed.

Lemma column_step_saved_OK (zoom : Z) (r : tile_range) (tile_x c c' : Z) :
  IO.outcome (column_step L g mountain_id zoom tile_size r tile_x c) = OK c' ->
  saved_tiles (IO.trace (column_step L g mountain_id zoom tile_size r tile_x c))
  = map (fun y => (zoom, tile_x, y)) (tile_ys r).
Proof.
  unfold column_step. rewrite outcome_bind, trace_bind. cbn [IO.emit IO.trace IO.outcome fst snd].
  intros H. rewrite saved_tiles_app. cbn [saved_tiles flat_map app].
  rewrite <- flat_map_singleton.
  apply (for_fold_flat_map _ (fun y => [(zoom, tile_x, y)])) with (s' := c'); [ | exact H ].
  intros y s s' _. apply tile_step_saved_OK.
Qed.

Lemma column_step_saved (zoom : Z) (r : tile_range) (tile_x c : Z) :
  saved_tiles (IO.trace (column_step L g mountain_id zoom tile_size r tile_x c))
  `prefix_of` map (fun y => (zoom, tile_x, y)) (tile_ys r).
Proof.
  unfold column_step. rewrite trace_bind. cbn [IO.emit IO.trace IO.outcome fst snd].
  rewrite saved_tiles_app. cbn [saved_tiles flat_map app].
  rewrite <- flat_map_singleton.
  apply (for_fold_prefix _ (fun y => [(zoom, tile_x, y)])).
  - intros y s _. apply tile_step_saved.
  - intros y s s' _. apply tile_step_saved_OK.
Qed.

Lemma column_step_count (zoom : Z) (r : tile_range) (tile_x c c' : Z) :
  IO.outcome (column_step L g mountain_id zoom tile_size r tile_x c) = OK c' ->
  c' = c + Z.of_nat (length (tile_ys r)).
Proof.
  unfold column_step. rewrite outcome_bind. cbn [IO.emit IO.outcome snd].
  apply tile_loop_count.
Qed.

Lemma column_loop_count (zoom : Z) (r : tile_range) (xs : list Z) (c c' : Z) :
  IO.outcome (IO.for_fold xs (column_step L g mountain_id zoom tile_size r) c) = OK c' ->
  c' = c + Z.of_nat (length xs * length (tile_ys r)).
Proof.
  revert c. induction xs as [ | x xs IH]; intros c.
  - cbn [IO.for_fold]. intros H. injection H as <-. simpl. lia.
  - cbn [IO.for_fold]. rewrite outcome_bind.
    destruct (IO.outcome (column_step L g mountain_id zoom tile_size r x c)) as [c1 | e] eqn:Hc1;
      [ | discriminate ].
    apply column_step_count in Hc1. intros H. apply IH in H. simpl length. lia.
Qed.

Lemma planned_tiles_length (b : bbox) (zoom : Z) (r : tile_range) :
  plan_tile_range L b zoom = OK r ->
  length (planned_tiles L b zoom) = (length (tile_xs r) * length (tile_ys r))%nat.
Proof.
  unfold planned_tiles. intros ->. induction (tile_xs r) as [ | x xs IH]; simpl.
  - reflexivity.
  - now rewrite length_app, length_map, IH.
Qed.

Lemma zoom_step_trace (b : bbox) (zoom : Z) :
  IO.trace (zoom_step L g mountain_id tile_size b zoom tt)
  = Stdout (MsgZoom zoom)
    :: match plan_tile_range L b zoom with
       | OK r =>
           let columns :=
             IO.for_fold (tile_xs r) (column_step L g mountain_id zoom tile_size r) 0 in
           [Stdout (MsgTilesX (min_tile_x r) (max_tile_x r));
            Stdout (MsgTilesY (min_tile_y r) (max_tile_y r));
            MkZoomDir mountain_id zoom]
           ++ IO.trace columns
           ++ match IO.outcome columns with
              | OK tile_count => [Stdout (MsgGenerated tile_count)]
              | Raise _ => []
              end
       | Raise _ => []
       end.
Proof.
  unfold zoom_step. rewrite !trace_bind. cbn [IO.emit IO.lift IO.trace IO.outcome fst snd app].
  destruct (plan_tile_range L b zoom) as [r | e]; [ | reflexivity ].
  rewrite ?trace_bind. cbn [IO.emit IO.lift IO.trace IO.outcome fst snd app].
  rewrite ?trace_bind. unfold tile_xs. cbn zeta.
  now destruct (IO.outcome (IO.for_fold _ _ _)).
Qed.

Lemma zoom_step_outcome (b : bbox) (zoom : Z) :
  IO.outcome (zoom_step L g mountain_id tile_size b zoom tt)
  = match plan_tile_range L b zoom with
    | OK r =>
        match IO.outcome (IO.for_fold (tile_xs r)
                            (column_step L g mountain_id zoom tile_size r) 0) with
        | OK _ => OK tt
        | Raise e => Raise e
        end
    | Raise e => Raise e
    end.
Proof.
  unfold zoom_step. rewrite !outcome_bind. cbn [IO.emit IO.lift IO.trace IO.outcome fst snd].
  destruct (plan_tile_range L b zoom) as [r | e]; [ | reflexivity ].
  rewrite ?outcome_bind. cbn [IO.emit IO.lift IO.trace IO.outcome fst snd].
  rewrite ?outcome_bind. unfold tile_xs.
  now destruct (IO.outcome (IO.for_fold _ _ _)).
Qed.

Lemma zoom_step_saved (b : bbox) (zoom : Z) :
  saved_tiles (IO.trace (zoom_step L g mountain_id tile_size b zoom tt))
  `prefix_of` planned_tiles L b zoom.
Proof.
  rewrite zoom_step_trace. unfold planned_tiles.
  destruct (plan_tile_range L b zoom) as [r | e]; [ | reflexivity ].
  cbn zeta. change (saved_tiles (_ :: [_; _; _] ++ ?t)) with (saved_tiles t).
  rewrite saved_tiles_app.
  replace (saved_tiles (match IO.outcome _ with OK tile_count => _ | Raise _ => [] end))
    with (@nil (Z * Z * Z)) by (now destruct (IO.outcome _)).
  rewrite app_nil_r.
  apply for_fold_prefix.
  - intros x s _. apply column_step_saved.
  - intros x s s' _. apply column_step_saved_OK.
Qed.

Lemma zoom_step_saved_OK (b : bbox) (zoom : Z) (u : unit) :
  IO.outcome (zoom_step L g mountain_id tile_size b zoom tt) = OK u ->
  saved_tiles (IO.trace (zoom_step L g mountain_id tile_size b zoom tt))
  = planned_tiles L b zoom.
Proof.
  rewrite zoom_step_trace, zoom_step_outcome. unfold planned_tiles.
  destruct (plan_tile_range L b zoom) as [r | e]; [ | discriminate ]. cbn zeta.
  destruct (IO.outcome (IO.for_fold (tile_xs r) _ 0)) as [c | e] eqn:Hc; [ | discriminate ].
  intros _.
  change (saved_tiles (_ :: [_; _; _] ++ ?t)) with (saved_tiles t).
  rewrite saved_tiles_app. change (saved_tiles [_]) with (@nil (Z * Z * Z)).
  rewrite app_nil_r.
  apply for_fold_flat_map with (s' := c); [ | exact Hc ].
  intros x s s' _. apply column_step_saved_OK.
Qed.

Lemma column_step_reports (zoom : Z) (r : tile_range) (xs : list Z) (c : Z) :
  reported_counts
    (IO.trace (IO.for_fold xs (column_step L g mountain_id zoom tile_size r) c)) = [].
Proof.
  assert (H : Forall (fun e => match e with Stdout (MsgGenerated _) => False | _ => True end)
                (IO.trace (IO.for_fold xs (column_step L g mountain_id zoom tile_size r) c))).
  { apply trace_for_fold_Forall. intros x s _. unfold column_step. trace_step.
    apply trace_for_fold_Forall. intros y s' _. rewrite tile_step_trace.
    destruct (render_tile L g zoom x y tile_size); repeat constructor. }
  induction H as [ | e t He _ IH]; [ reflexivity | ].
  destruct e as [[] | | | | ]; try exact IH. destruct He.
Qed.

Lemma zoom_step_reports_OK (b : bbox) (zoom : Z) (u : unit) :
  IO.outcome (zoom_step L g mountain_id tile_size b zoom tt) = OK u ->
  reported_counts (IO.trace (zoom_step L g mountain_id tile_size b zoom tt))
  = [Z.of_nat (length (planned_tiles L b zoom))].
Proof.
  rewrite zoom_step_trace, zoom_step_outcome.
  destruct (plan_tile_range L b zoom) as [r | e] eqn:Hr; [ | discriminate ]. cbn zeta.
  destruct (IO.outcome (IO.for_fold (tile_xs r) _ 0)) as [c | e] eqn:Hc; [ | discriminate ].
  intros _.
  change (reported_counts (_ :: [_; _; _] ++ ?t)) with (reported_counts t).
  rewrite reported_counts_app, column_step_reports. cbn.
  rewrite (planned_tiles_length b zoom r Hr).
  apply column_loop_count in Hc. now rewrite Hc.
Qed.

Lemma run_saved (zoom_min zoom_max : Z) (b : bbox) :
  bounding_box g = OK b ->
  saved_tiles (IO.trace (generate_tiles L (Some g) mountain_id zoom_min zoom_max tile_size))
  = saved_tiles (IO.trace (IO.for_fold (range zoom_min (zoom_max + 1))
                             (zoom_step L g mountain_id tile_size b) tt)).
Proof.
  intros Hb. unfold generate_tiles.
  rewrite !trace_bind. cbn [IO.emit IO.lift IO.trace IO.outcome fst snd app].
  rewrite Hb.
  rewrite !trace_bind. cbn [IO.emit IO.lift IO.trace IO.outcome fst snd app].
  change (saved_tiles (_ :: _ :: _ :: ?t)) with (saved_tiles t).
  rewrite saved_tiles_app.
  replace (saved_tiles (match IO.outcome _ with OK _ => _ | Raise _ => [] end))
    with (@nil (Z * Z * Z)) by (now destruct (IO.outcome _)).
  apply app_nil_r.
Qed.

Lemma run_saved_prefix (zoom_min zoom_max : Z) :
  saved_tiles (IO.trace (generate_tiles L (Some g) mountain_id zoom_min zoom_max tile_size))
  `prefix_of` planned_run L g zoom_min zoom_max.
Proof.
  unfold planned_run. destruct (bounding_box g) as [b | e] eqn:Hb.
  - rewrite (run_saved zoom_min zoom_max b Hb). apply for_fold_prefix.
    + intros zoom [] _. apply zoom_step_saved.
    + intros zoom [] s' _. apply zoom_step_saved_OK.
  - unfold generate_tiles.
    rewrite !trace_bind. cbn [IO.emit IO.lift IO.trace IO.outcome fst snd app].
    now rewrite Hb.
Qed.

(** X9. The tiles a run saves are the planned ones, zoom level by zoom
    level, column by column and row by row: always an initial part of
    that list, and the whole list when the run ends without an
    exception. *)
Theorem saved_tiles_planned (zoom_min zoom_max : Z) :
  saved_tiles (IO.trace (generate_tiles L (Some g) mountain_id zoom_min zoom_max tile_size))
  `prefix_of` planned_run L g zoom_min zoom_max
  /\ (IO.outcome (generate_tiles L (Some g) mountain_id zoom_min zoom_max tile_size) = OK tt ->
      saved_tiles (IO.trace (generate_tiles L (Some g) mountain_id zoom_min zoom_max tile_size))
      = planned_run L g zoom_min zoom_max).
Proof.
  split; [ apply run_saved_prefix | ].
  unfold planned_run. destruct (bounding_box g) as [b | e] eqn:Hb.
  - rewrite (run_saved zoom_min zoom_max b Hb). unfold generate_tiles.
    rewrite !outcome_bind. cbn [IO.emit IO.lift IO.outcome snd]. rewrite Hb.
    rewrite !outcome_bind. cbn [IO.emit IO.lift IO.outcome snd].
    destruct (IO.outcome (IO.for_fold _ _ tt)) as [u | e] eqn:Hu; [ | discriminate ].
    intros _. apply for_fold_flat_map with (s' := u); [ | exact Hu ].
    intros zoom [] s' _. apply zoom_step_saved_OK.
  - unfold generate_tiles. rewrite !outcome_bind. cbn [IO.emit IO.lift IO.outcome snd].
    rewrite Hb. discriminate.
Qed.

(** X10. In a run that ends without an exception, the count printed at
    the end of each zoom level is the number of tiles of that level: the
    printed counts are, level by level, the sizes of the planned tile
    sets (which are the saved ones). *)
Theorem reported_counts_correct (zoom_min zoom_max : Z) :
  IO.outcome (generate_tiles L (Some g) mountain_id zoom_min zoom_max tile_size) = OK tt ->
  exists b,
    bounding_box g = OK b
    /\ reported_counts
         (IO.trace (generate_tiles L (Some g) mountain_id zoom_min zoom_max tile_size))
       = map (fun zoom => Z.of_nat (length (planned_tiles L b zoom)))
           (range zoom_min (zoom_max + 1)).
Proof.
  unfold generate_tiles.
  rewrite !trace_bind, !outcome_bind. cbn [IO.emit IO.lift IO.trace IO.outcome fst snd app].
  destruct (bounding_box g) as [b | e]; [ | discriminate ].
  intros H. exists b. split; [ reflexivity | ]. revert H.
  rewrite !trace_bind, !outcome_bind. cbn [IO.emit IO.lift IO.trace IO.outcome fst snd app].
  destruct (IO.outcome (IO.for_fold _ _ tt)) as [u | e] eqn:Hu; [ | discriminate ].
  intros _. change (reported_counts (_ :: _ :: _ :: ?t)) with (reported_counts t).
  rewrite reported_counts_app. change (reported_counts [_]) with (@nil Z).
  rewrite app_nil_r.
  rewrite <- flat_map_singleton.
  apply for_fold_flat_map with (s' := u); [ | exact Hu ].
  intros zoom [] s' _. apply zoom_step_reports_OK.
Qed.

(** *** No tile is written twice *)

Lemma NoDup_flat_map {X Y : Type} (f : X -> list Y) (l : list X) :
  NoDup l ->
  (forall x, In x l -> NoDup (f x)) ->
  (forall x x' y, In x l -> In x' l -> In y (f x) -> In y (f x') -> x = x') ->
  NoDup (flat_map f l).
Proof.
  induction l as [ | a l IH]; intros Hl Hf Hdisj; simpl; [ constructor | ].
  apply NoDup_cons in Hl as [Ha Hl']. rewrite list_elem_of_In in Ha.
  apply NoDup_app. split; [ | split ].
  - apply Hf. now left.
  - intros y Hy Hy'. rewrite list_elem_of_In in Hy, Hy'.
    apply in_flat_map in Hy' as (x & Hx & Hy').
    apply Ha. now rewrite (Hdisj a x y (or_introl eq_refl) (or_intror Hx) Hy Hy').
  - apply IH; [ exact Hl' | intros; apply Hf; now right | ].
    intros x x' y Hx Hx'. apply Hdisj; now right.
Qed.

Lemma NoDup_map_inj {X Y : Type} (f : X -> Y) (l : list X) :
  (forall x x', f x = f x' -> x = x') -> NoDup l -> NoDup (map f l).
Proof.
  intros Hf. induction l as [ | a l IH]; intros Hl; simpl; [ constructor | ].
  apply NoDup_cons in Hl as [Ha Hl']. apply NoDup_cons. split; [ | now apply IH ].
  rewrite list_elem_of_In. intros H. apply in_map_iff in H as (x & Hx & H).
  apply Hf in Hx. subst x. now apply Ha, list_elem_of_In.
Qed.

Lemma NoDup_range (lo hi : Z) : NoDup (range lo hi).
Proof. apply NoDup_seqZ. Qed.

Lemma planned_tiles_zoom (b : bbox) (zoom z x y : Z) :
  In (z, x, y) (planned_tiles L b zoom) -> z = zoom.
Proof.
  unfold planned_tiles. destruct (plan_tile_range L b zoom) as [r | e]; [ | intros [] ].
  intros H. apply in_flat_map in H as (x' & _ & H). apply in_map_iff in H as (y' & H & _).
  congruence.
Qed.

Lemma planned_tiles_NoDup (b : bbox) (zoom : Z) : NoDup (planned_tiles L b zoom).
Proof.
  unfold planned_tiles. destruct (plan_tile_range L b zoom) as [r | e]; [ | constructor ].
  apply NoDup_flat_map.
  - apply NoDup_range.
  - intros x _. apply NoDup_map_inj; [ | apply NoDup_range ].
    intros y y' H. congruence.
  - intros x x' [[z x0] y] _ _ H H'.
    apply in_map_iff in H as (? & H & _). apply in_map_iff in H' as (? & H' & _). congruence.
Qed.

Lemma planned_run_NoDup (zoom_min zoom_max : Z) : NoDup (planned_run L g zoom_min zoom_max).
Proof.
  unfold planned_run. destruct (bounding_box g) as [b | e]; [ | constructor ].
  apply NoDup_flat_map.
  - apply NoDup_range.
  - intros zoom _. apply planned_tiles_NoDup.
  - intros zoom zoom' [[z x] y] _ _ H H'.
    apply planned_tiles_zoom in H, H'. congruence.
Qed.

End RunMore.

(** X11. No run writes the same tile twice: the (zoom, column, row)
    triples of the saved tiles are pairwise different, whether the file
    exists or not and whether the run ends normally or not. *)
Theorem no_tile_saved_twice (L : libm) (file : option geojson) (mountain_id : string)
    (zoom_min zoom_max tile_size : Z) :
  NoDup (saved_tiles (IO.trace (generate_tiles L file mountain_id zoom_min zoom_max tile_size))).
Proof.
  destruct file as [g | ]; [ | constructor ].
  destruct (run_saved_prefix L g mountain_id tile_size zoom_min zoom_max) as [k Hk].
  pose proof (planned_run_NoDup L g zoom_min zoom_max) as H.
  rewrite Hk in H. now apply NoDup_app in H.
Qed.

Lemma reported_counts_correct_witness :
  exists b,
    bounding_box Examples.crystal = OK b
    /\ reported_counts
         (IO.trace (generate_tiles SoftLibm.soft (Some Examples.crystal) "crystal" 12 12 256))
       = map (fun zoom => Z.of_nat (length (planned_tiles SoftLibm.soft b zoom)))
           (range 12 (12 + 1)).
Proof.
  apply (reported_counts_correct SoftLibm.soft Examples.crystal "crystal" 256 12 12).
  vm_compute. reflexivity.
Defined.

(** ** Directories and the closing message *)

Section Directories.

Lemma parents_exist_incl (before before' t : list event) :
  incl before before' -> parents_exist before t -> parents_exist before' t.
Proof.
  revert before before'. induction t as [ | e t IH]; intros before before' Hincl; simpl.
  - trivial.
  - intros [Hreq Hrest]. split.
    + eapply Forall_impl; [ exact Hreq | ]. intros d. apply Hincl.
    + apply (IH (e :: before)); [ | exact Hrest ].
      intros d [<- | Hd]; [ now left | right; now apply Hincl ].
Qed.

Lemma parents_exist_app (before t t' : list event) :
  parents_exist before t ->
  parents_exist (rev t ++ before) t' ->
  parents_exist before (t ++ t').
Proof.
  revert before. induction t as [ | e t IH]; intros before; simpl.
  - intros _ H. exact H.
  - intros [Hreq Hrest] H. split; [ exact Hreq | ].
    apply IH; [ exact Hrest | ]. now rewrite <- app_assoc in H.
Qed.

Lemma parents_exist_bind {A B : Type} (before : list event) (m : IO.io A) (k : A -> IO.io B) :
  parents_exist before (IO.trace m) ->
  (forall a, IO.outcome m = OK a ->
             parents_exist (rev (IO.trace m) ++ before) (IO.trace (k a))) ->
  parents_exist before (IO.trace (IO.bind m k)).
Proof.
  intros Hm Hk. rewrite trace_bind. apply parents_exist_app; [ exact Hm | ].
  destruct (IO.outcome m) as [a | e]; [ now apply Hk | exact I ].
Qed.

Lemma parents_exist_for_fold {A S : Type} (l : list A) (body : A -> S -> IO.io S)
    (before : list event) :
  (forall a s before', incl before before' ->
                       parents_exist before' (IO.trace (body a s))) ->
  forall s, parents_exist before (IO.trace (IO.for_fold l body s)).
Proof.
  revert before. induction l as [ | a l IH]; intros before Hbody s; simpl; [ exact I | ].
  apply parents_exist_bind.
  - apply Hbody. apply incl_refl.
  - intros s1 _. apply IH. intros a' s' before' Hincl. apply Hbody.
    intros d Hd. apply Hincl, in_or_app. now right.
Qed.

End Directories.

Section RunOrder.

Variable L : libm.

Lemma tile_step_parents (g : geojson) (mountain_id : string) (zoom tile_size tile_x tile_y c : Z)
    (before : list event) :
  In (MkXDir mountain_id zoom tile_x) before ->
  parents_exist before (IO.trace (tile_step L g mountain_id zoom tile_size tile_x tile_y c)).
Proof.
  intros H. rewrite tile_step_trace.
  destruct (render_tile L g zoom tile_x tile_y tile_size); simpl; [ | exact I ].
  split; [ | exact I ]. now constructor.
Qed.

Lemma column_step_parents (g : geojson) (mountain_id : string) (zoom tile_size : Z)
    (r : tile_range) (tile_x c : Z) (before : list event) :
  In (MkZoomDir mountain_id zoom) before ->
  parents_exist before (IO.trace (column_step L g mountain_id zoom tile_size r tile_x c)).
Proof.
  intros H. unfold column_step. apply parents_exist_bind.
  - simpl. split; [ now constructor | exact I ].
  - intros _ _. apply parents_exist_for_fold. intros y s before' Hincl.
    apply tile_step_parents, Hincl. now left.
Qed.

Lemma zoom_step_parents (g : geojson) (mountain_id : string) (tile_size : Z) (b : bbox)
    (zoom : Z) (before : list event) :
  In (MkOutputDir mountain_id) before ->
  parents_exist before (IO.trace (zoom_step L g mountain_id tile_size b zoom tt)).
Proof.
  intros H. unfold zoom_step.
  apply parents_exist_bind; [ now repeat split | intros _ _ ].
  apply parents_exist_bind; [ exact I | intros r _ ].
  apply parents_exist_bind; [ now repeat split | intros _ _ ].
  apply parents_exist_bind; [ now repeat split | intros _ _ ].
  apply parents_exist_bind.
  { simpl. split; [ | exact I ]. constructor; [ | constructor ]. simpl. tauto. }
  intros _ _. apply parents_exist_bind; [ | intros c _; now repeat split ].
  apply parents_exist_for_fold. intros x s before' Hincl.
  apply column_step_parents, Hincl. now left.
Qed.

(** X12. Nothing is written into a directory that the run has not made:
    in every run each zoom directory is made after the output directory,
    each column directory after its zoom directory, and each tile is
    saved after its column directory was made. *)
Theorem directories_before_use (file : option geojson) (mountain_id : string)
    (zoom_min zoom_max tile_size : Z) :
  parents_exist []
    (IO.trace (generate_tiles L file mountain_id zoom_min zoom_max tile_size)).
Proof.
  destruct file as [g | ]; [ | now repeat split ].
  unfold generate_tiles.
  apply parents_exist_bind; [ now repeat split | intros _ _ ].
  apply parents_exist_bind; [ now repeat split | intros _ _ ].
  apply parents_exist_bind; [ exact I | intros b _ ].
  apply parents_exist_bind; [ now repeat split | intros _ _ ].
  apply parents_exist_bind; [ | intros c _; now repeat split ].
  apply parents_exist_for_fold. intros zoom [] before' Hincl.
  apply zoom_step_parents, Hincl. simpl. tauto.
Qed.

(** X13. For an existing file, "Done!" is printed exactly when the run
    ends without an exception: after a failure at any zoom level the
    closing message is missing. *)
Theorem done_iff_success (g : geojson) (mountain_id : string)
    (zoom_min zoom_max tile_size : Z) :
  In (Stdout (MsgDone mountain_id))
     (IO.trace (generate_tiles L (Some g) mountain_id zoom_min zoom_max tile_size))
  <-> IO.outcome (generate_tiles L (Some g) mountain_id zoom_min zoom_max tile_size) = OK tt.
Proof.
  unfold generate_tiles.
  rewrite !trace_bind, !outcome_bind. cbn [IO.emit IO.lift IO.trace IO.outcome fst snd app].
  destruct (bounding_box g) as [b | e].
  2: { split; [ | discriminate ]. simpl. intros [H | [H | []]]; discriminate. }
  rewrite !trace_bind, !outcome_bind. cbn [IO.emit IO.lift IO.trace IO.outcome fst snd app].
  assert (Hloop : forall s, ~ In (Stdout (MsgDone mountain_id))
            (IO.trace (IO.for_fold (range zoom_min (zoom_max + 1))
                         (zoom_step L g mountain_id tile_size b) s))).
  { intros s H.
    assert (HF : Forall (fun e => e <> Stdout (MsgDone mountain_id))
              (IO.trace (IO.for_fold (range zoom_min (zoom_max + 1))
                           (zoom_step L g mountain_id tile_size b) s))).
    { apply trace_for_fold_Forall. intros zoom [] _. rewrite zoom_step_trace.
      constructor; [ discriminate | ].
      destruct (plan_tile_range L b zoom) as [r | e]; [ | constructor ]. cbn zeta.
      repeat (constructor; [ discriminate | ]).
      apply Forall_app. split.
      - apply trace_for_fold_Forall. intros x c _. unfold column_step.
        apply trace_bind_Forall; [ repeat constructor; discriminate | intros _ _ ].
        apply trace_for_fold_Forall. intros y c' _. rewrite tile_step_trace.
        destruct (render_tile L g zoom x y tile_size); repeat constructor; discriminate.
      - destruct (IO.outcome _); repeat constructor; discriminate. }
    rewrite List.Forall_forall in HF. exact (HF _ H eq_refl). }
  destruct (IO.outcome (IO.for_fold _ _ tt)) as [[] | e] eqn:Hu.
  - split; [ reflexivity | ]. intros _. do 3 right. apply in_or_app. right. now left.
  - split; [ | discriminate ]. intros [H | [H | [H | H]]]; try discriminate.
    rewrite app_nil_r in H. now apply Hloop in H.
Qed.

End RunOrder.

(** ** Longitudes that are not numbers *)

Section NotANumber.

Lemma add_not_a_number (a b : float) : not_a_number a -> not_a_number (a + b).
Proof.
  intros [Ha | s Ha].
  - apply IsNaN. rewrite add_spec, Ha. now destruct (Prim2SF b).
  - destruct (Prim2SF b) as [sb | sb | | sb mb eb] eqn:Hb.
    + apply (IsInfinity _ s). now rewrite add_spec, Ha, Hb.
    + destruct s, sb;
        first [ apply (IsInfinity _ true); now rewrite add_spec, Ha, Hb
              | apply (IsInfinity _ false); now rewrite add_spec, Ha, Hb
              | apply IsNaN; now rewrite add_spec, Ha, Hb ].
    + apply IsNaN. now rewrite add_spec, Ha, Hb.
    + apply (IsInfinity _ s). now rewrite add_spec, Ha, Hb.
Qed.

Lemma div_not_a_number (a b : float) : not_a_number a -> not_a_number (a / b).
Proof.
  intros [Ha | s Ha].
  - apply IsNaN. rewrite div_spec, Ha. now destruct (Prim2SF b).
  - destruct (Prim2SF b) as [sb | sb | | sb mb eb] eqn:Hb.
    + apply (IsInfinity _ (xorb s sb)). now rewrite div_spec, Ha, Hb.
    + apply IsNaN. now rewrite div_spec, Ha, Hb.
    + apply IsNaN. now rewrite div_spec, Ha, Hb.
    + apply (IsInfinity _ (xorb s sb)). now rewrite div_spec, Ha, Hb.
Qed.

Lemma mul_not_a_number (a b : float) : not_a_number a -> not_a_number (a * b).
Proof.
  intros [Ha | s Ha].
  - apply IsNaN. rewrite mul_spec, Ha. now destruct (Prim2SF b).
  - destruct (Prim2SF b) as [sb | sb | | sb mb eb] eqn:Hb.
    + apply IsNaN. now rewrite mul_spec, Ha, Hb.
    + apply (IsInfinity _ (xorb s sb)). now rewrite mul_spec, Ha, Hb.
    + apply IsNaN. now rewrite mul_spec, Ha, Hb.
    + apply (IsInfinity _ (xorb s sb)). now rewrite mul_spec, Ha, Hb.
Qed.

Lemma to_int_not_a_number (f : float) :
  not_a_number f -> Py.succeeds (PyFloat.to_int f) = false.
Proof. unfold PyFloat.to_int. now intros [-> | s ->]. Qed.

Lemma tile_x_of_not_a_number (lon n : float) :
  not_a_number lon -> Py.succeeds (tile_x_of lon n) = false.
Proof.
  intros H. unfold tile_x_of.
  now apply to_int_not_a_number, mul_not_a_number, div_not_a_number, add_not_a_number.
Qed.

(** X14. A longitude that is NaN or infinite has no tile: whatever the
    latitude, the zoom level and the C library, [lon_lat_to_tile] raises
    (from [2.0 ** zoom], or from [int] applied to a NaN or an infinity). *)
Theorem non_finite_longitude_has_no_tile (L : libm) (lon lat : float) (zoom : Z) :
  PrimFloat.is_finite lon = false ->
  Py.succeeds (lon_lat_to_tile L lon lat zoom) = false.
Proof.
  intros H. apply not_finite_cases in H. unfold lon_lat_to_tile.
  destruct (PyFloat.pow2 zoom) as [n | e]; cbn [Py.bind]; [ | reflexivity ].
  pose proof (tile_x_of_not_a_number lon n H) as Hx.
  now destruct (tile_x_of lon n).
Qed.

Lemma non_finite_longitude_has_no_tile_witness :
  Py.succeeds (lon_lat_to_tile SoftLibm.soft infinity Examples.chair_lat 12) = false.
Proof.
  apply (non_finite_longitude_has_no_tile SoftLibm.soft infinity Examples.chair_lat 12).
  reflexivity.
Defined.

Lemma lon_lat_to_tile_fails (L : libm) (lon lat : float) (zoom : Z) :
  not_a_number lon -> Py.succeeds (lon_lat_to_tile L lon lat zoom) = false.
Proof.
  intros H. unfold lon_lat_to_tile.
  destruct (PyFloat.pow2 zoom) as [n | e]; cbn [Py.bind]; [ | reflexivity ].
  pose proof (tile_x_of_not_a_number lon n H) as Hx.
  now destruct (tile_x_of lon n).
Qed.

Lemma plan_tile_range_not_a_number (L : libm) (b : bbox) (zoom : Z) :
  PrimFloat.is_finite (min_lon b) = false \/ PrimFloat.is_finite (max_lon b) = false ->
  Py.succeeds (plan_tile_range L b zoom) = false.
Proof.
  intros H. unfold plan_tile_range.
  destruct (lon_lat_to_tile L (min_lon b) (min_lat b) zoom) as [[lo_x hi_y] | e] eqn:Hlo;
    cbn [Py.bind]; [ | reflexivity ].
  destruct H as [H | H]; apply not_finite_cases in H.
  - apply (lon_lat_to_tile_fails L _ (min_lat b) zoom) in H.
    rewrite Hlo in H. discriminate.
  - apply (lon_lat_to_tile_fails L _ (max_lat b) zoom) in H.
    now destruct (lon_lat_to_tile L (max_lon b) (max_lat b) zoom) as [[hi_x lo_y] | e].
Qed.

End NotANumber.

Section DegenerateBox.

Lemma Prim2SF_not_finite (f : float) :
  Prim2SF f = S754_nan \/ (exists s, Prim2SF f = S754_infinity s) ->
  PrimFloat.is_finite f = false.
Proof.
  unfold is_finite, is_nan, is_infinity.
  rewrite !FloatAxioms.eqb_spec, abs_spec.
  change (Prim2SF infinity) with (S754_infinity false).
  intros [-> | [[] ->]]; reflexivity.
Qed.

Lemma ltb_lowest (v cur : float) : lowest cur -> PrimFloat.ltb v cur = false.
Proof.
  intros [H | H]; rewrite ltb_spec, H; unfold SFltb;
    destruct (Prim2SF v) as [ | [] | | ]; reflexivity.
Qed.

Lemma ltb_highest (v cur : float) : highest cur -> PrimFloat.ltb cur v = false.
Proof.
  intros [H | H]; rewrite ltb_spec, H; unfold SFltb;
    destruct (Prim2SF v) as [ | [] | | ]; reflexivity.
Qed.

Lemma min_from_lowest (cur : float) (l : list float) :
  lowest cur -> lowest (min_from cur l).
Proof.
  revert cur. induction l as [ | v l IH]; intros cur H; simpl; [ exact H | ].
  apply IH. now rewrite ltb_lowest.
Qed.

Lemma max_from_highest (cur : float) (l : list float) :
  highest cur -> highest (max_from cur l).
Proof.
  revert cur. induction l as [ | v l IH]; intros cur H; simpl; [ exact H | ].
  apply IH. now rewrite ltb_highest.
Qed.

Lemma min_from_reaches (cur v : float) (l : list float) :
  In v (cur :: l) -> Prim2SF v = S754_infinity true -> lowest (min_from cur l).
Proof.
  revert cur. induction l as [ | a l IH]; intros cur Hin Hv.
  - destruct Hin as [-> | []]. now right.
  - simpl. destruct Hin as [-> | [-> | Hin]].
    + apply min_from_lowest. rewrite ltb_lowest; now right.
    + apply min_from_lowest. destruct (PrimFloat.ltb v cur) eqn:Hlt; [ now right | ].
      rewrite ltb_spec, Hv in Hlt. unfold SFltb in Hlt.
      destruct (Prim2SF cur) as [ | [] | | ] eqn:Hc; try discriminate; [ now right | now left ].
    + apply IH; [ now right | exact Hv ].
Qed.

Lemma max_from_reaches (cur v : float) (l : list float) :
  In v (cur :: l) -> Prim2SF v = S754_infinity false -> highest (max_from cur l).
Proof.
  revert cur. induction l as [ | a l IH]; intros cur Hin Hv.
  - destruct Hin as [-> | []]. now right.
  - simpl. destruct Hin as [-> | [-> | Hin]].
    + apply max_from_highest. rewrite ltb_highest; now right.
    + apply max_from_highest. destruct (PrimFloat.ltb cur v) eqn:Hlt; [ now right | ].
      rewrite ltb_spec, Hv in Hlt. unfold SFltb in Hlt.
      destruct (Prim2SF cur) as [ | [] | | ] eqn:Hc; try discriminate; [ now right | now left ].
    + apply IH; [ now right | exact Hv ].
Qed.

Lemma lowest_not_finite (f : float) : lowest f -> PrimFloat.is_finite f = false.
Proof. intros [H | H]; apply Prim2SF_not_finite; [ now left | right; eexists; exact H ]. Qed.

Lemma highest_not_finite (f : float) : highest f -> PrimFloat.is_finite f = false.
Proof. intros [H | H]; apply Prim2SF_not_finite; [ now left | right; eexists; exact H ]. Qed.

(** An infinite longitude anywhere, or a NaN longitude in the first
    position, reaches a side of the bounding box. *)
Lemma degenerate_box (g : geojson) (b : bbox) :
  degenerate_longitudes (all_coords g) = true ->
  bounding_box g = OK b ->
  PrimFloat.is_finite (min_lon b) = false \/ PrimFloat.is_finite (max_lon b) = false.
Proof.
  intros Hd Hb.
  apply bounding_box_OK in Hb as (lon0 & lons & lat0 & lats & Hlons & _ & ->).
  cbn [min_lon max_lon].
  apply orb_true_iff in Hd as [Hd | Hd].
  - left. apply lowest_not_finite, min_from_lowest. left.
    destruct (all_coords g) as [ | [ | lon c] cs]; try discriminate.
    simpl in Hlons. destruct (items 0 cs); [ | discriminate ].
    injection Hlons as <- _. now apply is_nan_Prim2SF.
  - apply existsb_exists in Hd as (c & Hc & Hinf).
    destruct c as [ | lon c]; [ discriminate | ]. cbn in Hinf.
    assert (Hin : In lon (lon0 :: lons)).
    { apply (items_In_inv 0 (all_coords g) _ (lon :: c)); [ exact Hlons | exact Hc | reflexivity ]. }
    destruct (is_infinity_Prim2SF lon Hinf) as [[] Hs].
    + left. eapply lowest_not_finite, min_from_reaches; eassumption.
    + right. eapply highest_not_finite, max_from_reaches; eassumption.
Qed.

End DegenerateBox.

Section DegenerateRun.

Variable L : libm.

(** X15. One infinite longitude anywhere in the collection, or a NaN
    longitude in its first position, and the run saves no tile at all,
    whatever the C library: with a non-empty zoom range it ends with an
    exception before the first tile, at the latest when the tile range of
    the first zoom level is computed. *)
Theorem degenerate_longitudes_stop_run (g : geojson) (mountain_id : string)
    (zoom_min zoom_max tile_size : Z) :
  degenerate_longitudes (all_coords g) = true ->
  saved_tiles (IO.trace (generate_tiles L (Some g) mountain_id zoom_min zoom_max tile_size))
  = []
  /\ ((zoom_min <= zoom_max)%Z ->
      Py.succeeds
        (IO.outcome (generate_tiles L (Some g) mountain_id zoom_min zoom_max tile_size))
      = false).
Proof.
  intros Hd. split.
  - destruct (run_saved_prefix L g mountain_id tile_size zoom_min zoom_max) as [k Hk].
    assert (Hnone : planned_run L g zoom_min zoom_max = []).
    { unfold planned_run. destruct (bounding_box g) as [b | e] eqn:Hb; [ | reflexivity ].
      induction (range zoom_min (zoom_max + 1)) as [ | zoom zs IH]; [ reflexivity | ].
      simpl. rewrite IH, app_nil_r. unfold planned_tiles.
      pose proof (plan_tile_range_not_a_number L b zoom (degenerate_box g b Hd Hb)) as Hr.
      now destruct (plan_tile_range L b zoom). }
    rewrite Hnone in Hk. symmetry in Hk. now apply app_eq_nil in Hk.
  - intros Hz.
    destruct (IO.outcome (generate_tiles L (Some g) mountain_id zoom_min zoom_max tile_size))
      as [[] | e] eqn:Hrun; [ exfalso | reflexivity ].
    unfold generate_tiles in Hrun. rewrite !outcome_bind in Hrun.
    cbn [IO.emit IO.lift IO.outcome snd] in Hrun.
    destruct (bounding_box g) as [b | e] eqn:Hb; [ | discriminate ].
    rewrite !outcome_bind in Hrun. cbn [IO.emit IO.lift IO.outcome snd] in Hrun.
    destruct (IO.outcome (IO.for_fold _ _ tt)) as [u | e] eqn:Hu; [ | discriminate ].
    destruct (for_fold_outcome_OK _ _ _ _ Hu zoom_min) as ([] & s1 & Hstep).
    { apply in_range. lia. }
    rewrite zoom_step_outcome in Hstep.
    pose proof (plan_tile_range_not_a_number L b zoom_min (degenerate_box g b Hd Hb)) as Hr.
    destruct (plan_tile_range L b zoom_min); discriminate.
Qed.

End DegenerateRun.

Lemma degenerate_longitudes_stop_run_witness :
  saved_tiles
    (IO.trace (generate_tiles SoftLibm.soft (Some Unusual.unbounded) "crystal" 10 16 256))
  = []
  /\ ((10 <= 16)%Z ->
      Py.succeeds
        (IO.outcome (generate_tiles SoftLibm.soft (Some Unusual.unbounded) "crystal" 10 16 256))
      = false).
Proof.
  apply (degenerate_longitudes_stop_run SoftLibm.soft Unusual.unbounded "crystal" 10 16 256).
  reflexivity.
Defined.


(** ** Zoom levels and [2.0 ** zoom] *)

Section ZoomLimits.

Local Open Scope Z_scope.





Lemma pow2_exact (zoom : Z) :
  0 <= zoom < 1024 ->
  (let! n := PyFloat.pow2 zoom in PyFloat.to_int n) = OK (2 ^ zoom).
Proof.
  intros H.
  assert (Hall : forallb (fun z => match (let! n := PyFloat.pow2 z in PyFloat.to_int n) with
                                   | OK k => k =? 2 ^ z
                                   | Raise _ => false
                                   end) (seqZ 0 1024) = true) by (vm_compute; reflexivity).
  rewrite forallb_forall in Hall. specialize (Hall zoom).
  destruct (let! n := PyFloat.pow2 zoom in PyFloat.to_int n) as [k | e].
  - f_equal. apply Z.eqb_eq, Hall, list_elem_of_In, elem_of_seqZ. lia.
  - exfalso. assert (false = true); [ | discriminate ].
    apply Hall, list_elem_of_In, elem_of_seqZ. lia.
Qed.


(** X17. For zoom levels 0 to 1023, [2.0 ** zoom] succeeds and is the
    integer power exactly: converting it back with [int] gives
    [2 ^ zoom]. *)
Theorem pow2_is_power (zoom : Z) :
  0 <= zoom < 1024 ->
  exists n, PyFloat.pow2 zoom = OK n /\ PyFloat.to_int n = OK (2 ^ zoom).
Proof.
  intros H. pose proof (pow2_exact zoom H) as He.
  destruct (PyFloat.pow2 zoom) as [n | e]; [ | discriminate ]. now exists n.
Qed.


Lemma pow2_is_power_witness :
  exists n, PyFloat.pow2 16 = OK n /\ PyFloat.to_int n = OK (2 ^ 16).
Proof. apply (pow2_is_power 16). lia. Defined.

End ZoomLimits.

(** ** Line width *)

Section Width.

Local Open Scope Z_scope.

(** X18. The line width never decreases when the zoom level grows, and
    it stays between 1 and 4 pixels for every integer zoom level. *)
Theorem get_lift_width_monotone (zoom zoom' : Z) :
  zoom <= zoom' ->
  1 <= get_lift_width zoom <= get_lift_width zoom' /\ get_lift_width zoom' <= 4.
Proof.
  intros H. unfold get_lift_width.
  repeat match goal with
         | |- context [?a <=? ?b] => destruct (Z.leb_spec a b)
         end; lia.
Qed.

Lemma get_lift_width_monotone_witness :
  1 <= get_lift_width 10 <= get_lift_width 14 /\ get_lift_width 14 <= 4.
Proof. apply (get_lift_width_monotone 10 14). lia. Defined.

End Width.

(** ** More of the transforms in exact arithmetic *)

Section ExactMore.

Import Reals.
Local Open Scope R_scope.







(** *** The planned range covers the box *)



(** *** Pixels of a point in its own tile *)







End ExactMore.

(** ** Positions that are not pairs, over a whole run *)

Section MalformedRun.

Variable L : libm.

Lemma saved_tiles_nil (t : list event) :
  Forall (fun e => match e with SaveTile _ _ _ _ _ => False | _ => True end) t ->
  saved_tiles t = [].
Proof.
  induction 1 as [ | e t He _ IH]; [ reflexivity | ].
  destruct e; try exact IH. destruct He.
Qed.

(** X22. A collection in which some position does not have exactly two
    items never yields a tile: whatever the zoom range, the tile size and
    the C library, the run saves nothing (each tile it reaches raises
    while the positions are unpacked). *)
Theorem malformed_positions_save_nothing (g : geojson) (mountain_id : string)
    (zoom_min zoom_max tile_size : Z) :
  Exists (fun f => Exists (fun c => length c <> 2%nat) (coordinates f)) (features g) ->
  saved_tiles (IO.trace (generate_tiles L (Some g) mountain_id zoom_min zoom_max tile_size))
  = [].
Proof.
  intros Hbad. apply saved_tiles_nil.
  assert (Hfail : forall zoom x y,
             IO.trace (tile_step L g mountain_id zoom tile_size x y 0) = []).
  { intros zoom x y. rewrite tile_step_trace.
    pose proof (draw_features_malformed L zoom x y tile_size) as Hd.
    unfold render_tile.
    destruct (tile_to_lon_lat L x y zoom) as [nw | e]; cbn [Py.bind]; [ | reflexivity ].
    destruct (tile_to_lon_lat L (x + 1) (y + 1) zoom) as [se | e];
      cbn [Py.bind]; [ | reflexivity ].
    specialize (Hd nw se (features g) Hbad).
    now destruct (draw_features L zoom x y tile_size nw se (features g)). }
  unfold generate_tiles.
  do 2 trace_step. trace_step_as b Hb.
  do 2 trace_step; [ | repeat constructor ].
  apply trace_for_fold_Forall. intros zoom [] _. unfold zoom_step.
  trace_step. trace_step_as r Hr.
  do 4 trace_step; [ | repeat constructor ].
  apply trace_for_fold_Forall. intros x c _.
  unfold column_step. trace_step.
  apply trace_for_fold_Forall. intros y c' _.
  rewrite tile_step_trace. specialize (Hfail zoom x y). rewrite tile_step_trace in Hfail.
  rewrite Hfail. constructor.
Qed.

End MalformedRun.

Lemma malformed_positions_save_nothing_witness :
  saved_tiles
    (IO.trace (generate_tiles SoftLibm.soft (Some Unusual.with_elevation) "crystal" 10 16 256))
  = [].
Proof.
  apply (malformed_positions_save_nothing SoftLibm.soft Unusual.with_elevation "crystal" 10 16 256).
  apply Exists_cons_hd, Exists_cons_hd. discriminate.
Defined.

(** ** Orientation of the pixel grid *)

Section ExactOrientation.

Import Reals.
Local Open Scope R_scope.





End ExactOrientation.

(** ** The command line *)

Section CommandLine.

Variable L : libm.

Lemma render_tile_size (g : geojson) (zoom tile_x tile_y tile_size : Z) (img : image) :
  render_tile L g zoom tile_x tile_y tile_size = OK img -> image_size img = tile_size.
Proof.
  unfold render_tile. intros H.
  apply bind_OK_inv in H as (nw & _ & H). apply bind_OK_inv in H as (se & _ & H).
  apply bind_OK_inv in H as (ls & _ & H). now injection H as <-.
Qed.

(** X24. Started without options, the script only saves tiles of the
    mountain named on the command line, at zoom levels 10 to 16, each
    256 pixels wide. *)
Theorem main_defaults (file : option geojson) (mountain_id : string) :
  Forall (fun e => match e with
                   | SaveTile id zoom _ _ img =>
                       id = mountain_id /\ (10 <= zoom <= 16)%Z /\ image_size img = 256%Z
                   | _ => True
                   end)
    (IO.trace (main L file mountain_id None None None)).
Proof.
  unfold main. cbn [default]. destruct file as [g | ]; [ | repeat constructor ].
  assert (H : Forall (tile_of_run L g mountain_id 10 16 256)
                (IO.trace (generate_tiles L (Some g) mountain_id 10 16 256))).
  { unfold generate_tiles.
    do 2 trace_step. trace_step_as b Hb.
    do 2 trace_step; [ | repeat constructor ].
    apply trace_for_fold_Forall. intros zoom [] Hz. apply in_range in Hz.
    apply zoom_step_saves; [ exact Hb | lia ]. }
  eapply Forall_impl; [ exact H | ].
  intros [ | | | | id zoom x y img]; try (intros _; exact I).
  intros (Hid & Hzoom & _ & Himg). repeat split; try assumption; try lia.
  now apply render_tile_size in Himg.
Qed.

End CommandLine.

(** ** The OSM extractor *)

Section ParseFacts.

Import ParseSkiLifts.

Lemma loop_app (s : state) (a b : list elem) :
  loop s (a ++ b)
  = let '(out, s') := loop s a in
    let '(out', s'') := loop s' b in
    (out ++ out', s'').
Proof.
  revert s. induction a as [ | e a IH]; intros s; simpl.
  - now destruct (loop s b).
  - rewrite IH. destruct (loop (step s e) a) as [out s'].
    destruct (loop s' b) as [out' s'']. now rewrite app_assoc.
Qed.

Lemma loop_state (s : state) (events : list elem) :
  snd (loop s events) = fold_left step events s.
Proof.
  revert s. induction events as [ | e events IH]; intros s; simpl; [ reflexivity | ].
  rewrite <- IH. now destruct (loop (step s e) events).
Qed.

Lemma parse_osm_file_lifts (events : list elem) :
  snd (parse_osm_file events) = mountain_lifts (fold_left step events initial).
Proof.
  unfold parse_osm_file. rewrite <- loop_state. now destruct (loop initial events).
Qed.

(** *** The phases of a document *)

Lemma nodes_phase (s : state) (ns : list (string * float * float)) :
  fold_left step (map node_event ns) s
  = State (fold_left (fun t n => let '(node_id, lat, lon) := n in <[node_id := (lat, lon)]> t)
             ns (nodes s))
      (mountain_lifts s) (way_count s) (lift_count s) (current_way s)
      (current_way_nodes s) (current_way_tags s).
Proof.
  revert s. induction ns as [ | [[i lat] lon] ns IH]; intros s; simpl.
  - now destruct s.
  - now rewrite IH.
Qed.

Lemma refs_phase (s : state) (w : string) (refs : list string) :
  current_way s = Some w ->
  fold_left step (map nd refs) s
  = State (nodes s) (mountain_lifts s) (way_count s) (lift_count s) (Some w)
      (current_way_nodes s ++ refs) (current_way_tags s).
Proof.
  revert s. induction refs as [ | r refs IH]; intros s Hw; simpl.
  - rewrite app_nil_r. destruct s; simpl in *; congruence.
  - rewrite IH by (simpl; now rewrite Hw). simpl. rewrite Hw. simpl.
    now rewrite <- app_assoc.
Qed.

Lemma tags_phase (s : state) (w : string) (tags : list (string * string)) :
  current_way s = Some w ->
  fold_left step (map (fun kv => tag kv.1 kv.2) tags) s
  = State (nodes s) (mountain_lifts s) (way_count s) (lift_count s) (Some w)
      (current_way_nodes s)
      (fold_left (fun t kv => <[kv.1 := kv.2]> t) tags (current_way_tags s)).
Proof.
  revert s. induction tags as [ | [k v] tags IH]; intros s Hw; simpl.
  - destruct s; simpl in *; congruence.
  - rewrite IH by (simpl; now rewrite Hw). simpl. now rewrite Hw.
Qed.

Lemma children_lost (s : state) (refs : list string) (tags : list (string * string)) :
  current_way s = None ->
  fold_left step (map nd refs ++ map (fun kv => tag kv.1 kv.2) tags) s = s.
Proof.
  intros Hw. rewrite fold_left_app.
  assert (H1 : fold_left step (map nd refs) s = s).
  { induction refs as [ | r refs IH]; simpl; [ reflexivity | ]. now rewrite Hw. }
  rewrite H1. induction tags as [ | kv tags IH]; simpl; [ reflexivity | ]. now rewrite Hw.
Qed.

Lemma first_way_phase (s : state) (w : way_element) :
  current_way s = None ->
  fold_left step (way_events w) s
  = State (nodes s) (mountain_lifts s) (way_count s + 1) (lift_count s)
      (Some (way_id w)) [] ∅.
Proof.
  intros Hw. unfold way_events. rewrite app_assoc, fold_left_app.
  rewrite children_lost by exact Hw. simpl. now rewrite Hw.
Qed.

Lemma next_way_phase (s : state) (prev : way_element) (w : way_element) :
  between_ways s (way_id prev) ->
  let s' := fold_left step (way_events w) s in
  between_ways s' (way_id w)
  /\ nodes s' = nodes s
  /\ mountain_lifts s' = file_lift (nodes s) (mountain_lifts s) (prev, w)
  /\ way_count s' = (way_count s + 1)%Z.
Proof.
  intros (Hw & Hn & Ht). cbn zeta. unfold way_events.
  rewrite !fold_left_app. rewrite (refs_phase s (way_id prev)) by exact Hw.
  rewrite (tags_phase _ (way_id prev)) by reflexivity.
  cbn [fold_left step current_way nodes mountain_lifts way_count lift_count
       current_way_nodes current_way_tags].
  rewrite Hn, Ht. cbn [app]. unfold file_lift, tag_table. cbn [fst snd].
  destruct (lift_of (nodes s) (way_id prev) (way_refs w) _) as [[m f] | ];
    repeat split; reflexivity.
Qed.

Lemma ways_phase (ws : list way_element) (s : state) (prev : way_element) :
  between_ways s (way_id prev) ->
  let s' := fold_left step (flat_map way_events ws) s in
  mountain_lifts s' = fold_left (file_lift (nodes s)) (zip (prev :: ws) ws) (mountain_lifts s)
  /\ way_count s' = (way_count s + Z.of_nat (length ws))%Z.
Proof.
  revert s prev. induction ws as [ | w ws IH]; intros s prev Hs; cbn zeta.
  - simpl. split; [ reflexivity | lia ].
  - cbn [flat_map]. rewrite fold_left_app.
    destruct (next_way_phase s prev w Hs) as (Hs' & Hnodes & Hlifts & Hcount).
    destruct (IH _ w Hs') as [IHl IHc]. rewrite IHl, IHc, Hnodes, Hlifts, Hcount.
    split; [ reflexivity | ]. cbn [length]. lia.
Qed.

Lemma document_state (ns : list (string * float * float)) (ws : list way_element) :
  let s := fold_left step (document_events ns ws) initial in
  mountain_lifts s = fold_left (file_lift (node_table ns)) (neighbours ws) []
  /\ way_count s = Z.of_nat (length ws).
Proof.
  cbn zeta. unfold document_events. rewrite !fold_left_app, nodes_phase.
  cbn [initial nodes mountain_lifts way_count lift_count current_way
       current_way_nodes current_way_tags].
  fold (node_table ns).
  destruct ws as [ | w1 ws]; [ now split | ].
  cbn [flat_map]. rewrite fold_left_app, first_way_phase by reflexivity.
  cbn [nodes mountain_lifts way_count lift_count].
  match goal with
  | |- context [fold_left step (flat_map way_events ws) ?s0] =>
      destruct (ways_phase ws s0 w1) as [Hl Hc]; [ now repeat split | ]
  end.
  cbn [fold_left step]. cbn zeta in Hl, Hc. 
  cbn [nodes mountain_lifts way_count] in Hl, Hc.
  rewrite Hl, Hc. split; [ reflexivity | ]. cbn [length]. lia.
Qed.

(** X25. For a file of nodes followed by ways, the lifts returned are
    those of the ways from the second one on, each built from the node
    references and the tags of its own way but filed with the id (and the
    default name) of the way before it: the loop acts on [end] events,
    which reach a way after its children. *)
Theorem lifts_carry_previous_id (ns : list (string * float * float))
    (ws : list way_element) :
  snd (parse_osm_file (document_events ns ws))
  = fold_left (file_lift (node_table ns)) (neighbours ws) [].
Proof.
  rewrite parse_osm_file_lifts. apply (document_state ns ws).
Qed.

(** X26. The first way of a file is never extracted: a file with a
    single way yields no lift at all, whatever the way is. *)
Theorem single_way_is_lost (ns : list (string * float * float)) (w : way_element) :
  snd (parse_osm_file (document_events ns [w])) = [].
Proof.
  rewrite parse_osm_file_lifts. now rewrite (proj1 (document_state ns [w])).
Qed.

(** *** What is filed, for any sequence of events *)

Lemma omap_position_of (coords : list (float * float)) :
  omap position_of (map (fun '(lat, lon) => [lon; lat]) coords) = coords.
Proof.
  induction coords as [ | [lat lon] coords IH]; [ reflexivity | ].
  simpl. f_equal. exact IH.
Qed.

Lemma positions_are_pairs (coords : list (float * float)) :
  Forall (fun c => length c = 2%nat) (map (fun '(lat, lon) => [lon; lat]) coords).
Proof. induction coords as [ | [lat lon] coords IH]; simpl; now constructor. Qed.

Lemma lift_of_filed (tbl : gmap string (float * float)) (w : string) (refs : list string)
    (tags : gmap string string) (m : string) (f : lift) :
  lift_of tbl w refs tags = Some (m, f) -> filed_under m f /\ id f = w.
Proof.
  unfold lift_of. destruct (tags !! "aerialway"%string) as [ty | ]; [ | discriminate ].
  destruct (bool_decide (ty ∈ skipped)) eqn:Hty; [ discriminate | ].
  destruct (known_coords tbl refs) as [ | c coords] eqn:Hc; [ discriminate | ].
  assert (Hne : c :: coords <> []) by discriminate.
  remember (c :: coords) as cs eqn:Hcs. clear Hcs.
  destruct (first_mountain cs) as [m' | ] eqn:Hm; [ | discriminate ].
  intros H. injection H as <- <-. split; [ | reflexivity ].
  unfold filed_under. cbn [coordinates type].
  split; [ destruct cs; [ congruence | discriminate ] | ].
  split; [ apply positions_are_pairs | ].
  split; [ now apply bool_decide_eq_false in Hty | ].
  now rewrite omap_position_of.
Qed.

Lemma append_lift_keys (m : string) (f : lift) (d : list (string * list lift)) :
  map fst (append_lift m f d) = map fst d
  \/ (~ In m (map fst d) /\ map fst (append_lift m f d) = map fst d ++ [m]).
Proof.
  induction d as [ | [k fs] d IH]; simpl.
  - right. split; [ tauto | reflexivity ].
  - destruct (String.eqb_spec k m) as [-> | Hne]; simpl; [ now left | ].
    destruct IH as [IH | [Hn IH]].
    + left. now rewrite IH.
    + right. split; [ intros [H | H]; [ congruence | tauto ] | now rewrite IH ].
Qed.

Lemma append_lift_well_filed (m : string) (f : lift) (d : list (string * list lift)) :
  filed_under m f -> well_filed d -> well_filed (append_lift m f d).
Proof.
  intros Hf [Hk Hd]. split.
  - destruct (append_lift_keys m f d) as [-> | [Hn ->]]; [ exact Hk | ].
    apply NoDup_app. repeat split; [ exact Hk | | apply NoDup_singleton ].
    intros x Hx Hx'. apply list_elem_of_In in Hx. apply list_elem_of_In in Hx'.
    destruct Hx' as [<- | []]. now apply Hn.
  - clear Hk. induction d as [ | [k fs] d IH]; simpl.
    + constructor; [ | constructor ]. cbn [fst snd].
      split; [ discriminate | ]. constructor; [ exact Hf | constructor ].
    + apply Forall_cons in Hd as [[Hne Hfs] Hd]. cbn [fst snd] in *.
      destruct (String.eqb_spec k m) as [-> | Hkm].
      * constructor; [ | exact Hd ]. cbn [fst snd]. split.
        -- destruct fs; discriminate.
        -- apply Forall_app. split; [ exact Hfs | now constructor ].
      * constructor; [ now split | now apply IH ].
Qed.

Lemma append_lift_count (m : string) (f : lift) (d : list (string * list lift)) :
  filed_count (append_lift m f d) = S (filed_count d).
Proof.
  unfold filed_count. induction d as [ | [k fs] d IH]; simpl; [ reflexivity | ].
  destruct (String.eqb k m); simpl.
  - rewrite !length_app. simpl. lia.
  - rewrite !length_app, IH. lia.
Qed.

Lemma step_well_filed (s : state) (e : elem) :
  well_filed (mountain_lifts s) /\ lift_count s = Z.of_nat (filed_count (mountain_lifts s)) ->
  well_filed (mountain_lifts (step s e))
  /\ lift_count (step s e) = Z.of_nat (filed_count (mountain_lifts (step s e))).
Proof.
  intros [Hw Hc]. destruct e as [i lat lon | i | r | k v | t]; simpl.
  - now split.
  - destruct (current_way s) as [w | ]; [ | now split ].
    destruct (lift_of (nodes s) w (current_way_nodes s) (current_way_tags s))
      as [[m f] | ] eqn:Hl; simpl; [ | now split ].
    apply lift_of_filed in Hl as [Hf _]. split.
    + now apply append_lift_well_filed.
    + rewrite append_lift_count, Hc. lia.
  - destruct (current_way s); now split.
  - destruct (current_way s); now split.
  - now split.
Qed.

Lemma run_well_filed (events : list elem) (s : state) :
  well_filed (mountain_lifts s) /\ lift_count s = Z.of_nat (filed_count (mountain_lifts s)) ->
  well_filed (mountain_lifts (fold_left step events s))
  /\ lift_count (fold_left step events s)
     = Z.of_nat (filed_count (mountain_lifts (fold_left step events s))).
Proof.
  revert s. induction events as [ | e events IH]; intros s H; simpl; [ exact H | ].
  apply IH. now apply step_well_filed.
Qed.

Lemma initial_well_filed :
  well_filed (mountain_lifts initial)
  /\ lift_count initial = Z.of_nat (filed_count (mountain_lifts initial)).
Proof. repeat split; constructor. Qed.

(** X27. Whatever the sequence of elements, the returned dict lists no
    mountain twice and no mountain without lifts, and every lift in it
    has at least one position, positions of exactly two items, a type
    that is not one of the skipped ones, and is filed under the first
    mountain of [MOUNTAINS] whose box holds one of its positions. *)
Theorem parse_osm_file_well_filed (events : list elem) :
  well_filed (snd (parse_osm_file events)).
Proof.
  rewrite parse_osm_file_lifts. apply (run_well_filed events initial initial_well_filed).
Qed.

(** The closing line reports the number of lifts and of mountains of
    the returned dict. *)
Lemma parse_osm_file_reports (events : list elem) :
  exists printed,
    fst (parse_osm_file events)
    = printed ++ [Complete (Z.of_nat (filed_count (snd (parse_osm_file events))))
                    (length (snd (parse_osm_file events)))].
Proof.
  pose proof (run_well_filed events initial initial_well_filed) as [_ Hc].
  unfold parse_osm_file. rewrite <- loop_state in Hc.
  destruct (loop initial events) as [out s]. cbn [fst snd] in *.
  exists (Parsing :: out). now rewrite Hc.
Qed.

Example shifted_ids_run :
  snd (parse_osm_file
         (document_events SmallFile.node_elements [SmallFile.gondola; SmallFile.chair]))
  = [("crystal"%string,
      [Lift [[-0x1.e5e147ae147aep+6; 0x1.7770a3d70a3d7p+5]%float;
             [Examples.chair_lon; Examples.chair_lat]]
         "100" "chair_lift" "Lift 100" None None None None None])].
Proof. vm_compute. reflexivity. Qed.

End ParseFacts.

(** ** Writing the files *)

Section WriteFacts.

Import ParseSkiLifts.

Lemma first_mountain_known (coords : list (float * float)) (m : string) :
  first_mountain coords = Some m -> exists c, mountain_config m = Some c.
Proof.
  unfold first_mountain, mountain_config.
  destruct (List.find _ MOUNTAINS) as [[k c] | ] eqn:Hf; [ | discriminate ].
  intros H. injection H as <-. apply find_some in Hf as [Hin _].
  destruct (List.find (fun m => String.eqb m.1 k) MOUNTAINS) as [[k' c'] | ] eqn:Hk.
  - now exists c'.
  - exfalso. apply (find_none _ _ Hk) in Hin. cbn in Hin. now rewrite String.eqb_refl in Hin.
Qed.

(** X28. Applied to what [parse_osm_file] returns,
    [generate_geojson_files] ends normally (no [KeyError] from
    [MOUNTAINS]), never prints the "No lifts found" warning, and writes
    exactly one file per mountain of the dict, in its order, with the
    lifts of that mountain and their number as [lift_count]. *)
Theorem every_mountain_is_written (events : list elem) :
  snd (generate_geojson_files (snd (parse_osm_file events))) = Returned
  /\ Forall (fun o => match o with NoLifts _ => False | _ => True end)
       (fst (generate_geojson_files (snd (parse_osm_file events))))
  /\ omap (fun o => match o with WriteFile m _ n fs => Some (m, n, fs) | _ => None end)
       (fst (generate_geojson_files (snd (parse_osm_file events))))
     = map (fun kfs => (kfs.1, length kfs.2, kfs.2)) (snd (parse_osm_file events)).
Proof.
  pose proof (run_well_filed events initial initial_well_filed) as [[_ Hd] _].
  rewrite <- parse_osm_file_lifts in Hd.
  unfold generate_geojson_files.
  induction Hd as [ | [m fs] d [Hne Hfs] _ IH]; [ repeat split; repeat constructor | ].
  cbn [fst snd] in *. cbn [write_files].
  destruct fs as [ | f fs]; [ congruence | ].
  apply Forall_cons in Hfs as [(_ & _ & _ & Hm) _].
  destruct (first_mountain_known _ _ Hm) as [c ->].
  destruct (write_files d) as [out r]. cbn [fst snd] in *.
  destruct IH as (-> & Hno & Hfiles). split; [ reflexivity | ]. split.
  - apply Forall_cons in Hno as [_ Hno]. repeat constructor. exact Hno.
  - cbn in Hfiles |- *. now rewrite Hfiles.
Qed.

End WriteFacts.

(** ** The Overpass conversion *)

Section FetchFacts.

Import FetchLiftGeojson.

Lemma way_coords_pairs (nodes : gmap Z (float * float)) (refs : list Z) :
  Forall (fun c => length c = 2%nat) (way_coords nodes refs).
Proof.
  induction refs as [ | r refs IH]; [ constructor | ].
  unfold way_coords. simpl. destruct (nodes !! r) as [[lat lon] | ]; simpl.
  - constructor; [ reflexivity | exact IH ].
  - exact IH.
Qed.

Lemma feature_of_stems (elements : list element) (e : element) (f : lift) :
  In e elements ->
  feature_of (node_positions elements) e = Some f ->
  stems_from elements f.
Proof.
  intros He. destruct e as [ | i tags refs | ]; simpl; try discriminate.
  destruct (default ∅ tags !! "aerialway"%string) as [ty | ] eqn:Hty; simpl.
  2: { discriminate. }
  destruct (bool_decide (ty ∈ SKIP_TYPES)) eqn:Hskip; [ discriminate | ].
  destruct (String.eqb_spec ty "") as [-> | Hne]; [ discriminate | ]. simpl.
  destruct (way_coords (node_positions elements) (default [] refs)) as [ | c cs] eqn:Hc;
    [ discriminate | ].
  intros H. injection H as <-. exists i, tags, refs. cbn [id type coordinates].
  repeat split; try assumption; try reflexivity.
  - now apply bool_decide_eq_false in Hskip.
  - now rewrite Hc.
  - discriminate.
  - rewrite <- Hc. apply way_coords_pairs.
Qed.

(** X29. Every feature of the collection stems from a way of the answer:
    it carries the way's id as a decimal string and its [aerialway] tag
    as type, that type is neither empty nor one of [SKIP_TYPES], and its
    positions are the positions of the way's nodes that occur in the
    answer, in the order of the references, longitude first; there is at
    least one position and each has exactly two items. *)
Theorem overpass_features_stem_from_ways (mountain_id mountain_name : string)
    (elements : list element) :
  Forall (stems_from elements)
    (features (overpass_to_geojson mountain_id mountain_name (Some elements))).
Proof.
  unfold overpass_to_geojson. cbn [default features].
  apply List.Forall_forall. intros f Hf.
  apply list_elem_of_In, list_elem_of_omap in Hf as (e & He & Hfe).
  apply (feature_of_stems elements e f); [ now apply list_elem_of_In | exact Hfe ].
Qed.

(** *** Nodes may come after the ways *)

Lemma node_positions_app (a b : list element) :
  node_positions (a ++ b)
  = fold_left
      (fun nodes elem =>
         match elem with
         | node_element i lat lon => <[i := (lat, lon)]> nodes
         | _ => nodes
         end)
      b (node_positions a).
Proof. unfold node_positions. apply fold_left_app. Qed.

Lemma fold_no_nodes (ways : list element) (t : gmap Z (float * float)) :
  Forall (fun e => is_node e = false) ways ->
  fold_left
    (fun nodes elem =>
       match elem with
       | node_element i lat lon => <[i := (lat, lon)]> nodes
       | _ => nodes
       end)
    ways t = t.
Proof.
  intros H. revert t. induction H as [ | e ways He _ IH]; intros t; simpl; [ reflexivity | ].
  destruct e; [ discriminate | apply IH | apply IH ].
Qed.

Lemma omap_nodes (t : gmap Z (float * float)) (ns : list element) :
  Forall (fun e => is_node e = true) ns -> omap (feature_of t) ns = [].
Proof.
  induction 1 as [ | e ns He _ IH]; [ reflexivity | ].
  destruct e; try discriminate. exact IH.
Qed.

(** X30. The conversion makes two passes, so the result does not depend
    on whether the nodes come before or after the other elements of the
    answer. *)
Theorem nodes_may_follow_ways (mountain_id mountain_name : string)
    (ns ways : list element) :
  Forall (fun e => is_node e = true) ns ->
  Forall (fun e => is_node e = false) ways ->
  overpass_to_geojson mountain_id mountain_name (Some (ways ++ ns))
  = overpass_to_geojson mountain_id mountain_name (Some (ns ++ ways)).
Proof.
  intros Hn Hw. unfold overpass_to_geojson. cbn [default from_option Datatypes.id]. cbn zeta.
  assert (Ht : node_positions (ways ++ ns) = node_positions (ns ++ ways)).
  { rewrite (node_positions_app ns ways), (fold_no_nodes ways) by exact Hw.
    rewrite (node_positions_app ways ns). unfold node_positions at 1.
    now rewrite (fold_no_nodes ways) by exact Hw. }
  rewrite Ht, !omap_app, (omap_nodes _ ns Hn), app_nil_r. reflexivity.
Qed.

Lemma nodes_may_follow_ways_witness :
  overpass_to_geojson "crystal" "Crystal Mountain" (Some (SmallFile.ways ++ SmallFile.nodes))
  = overpass_to_geojson "crystal" "Crystal Mountain" (Some (SmallFile.nodes ++ SmallFile.ways)).
Proof.
  apply (nodes_may_follow_ways "crystal" "Crystal Mountain" SmallFile.nodes SmallFile.ways);
    repeat constructor.
Defined.

Example overpass_run :
  overpass_to_geojson "crystal" "Crystal Mountain" (Some (SmallFile.ways ++ SmallFile.nodes))
  = Collection "crystal" "Crystal Mountain" 1
      [Lift [[Examples.chair_lon; Examples.chair_lat];
             [-0x1.e5e147ae147aep+6; 0x1.7770a3d70a3d7p+5]%float]
         "7" "chair_lift" "Lift 7" None None None None None].
Proof. vm_compute. reflexivity. Qed.

End FetchFacts.
